(** * Snap2Sheet: the extraction client and the batch orchestrator

    A shallow embedding of [services/geminiService.ts] (the Extraction
    Client, [extractDataFromImage]), of the batch handler of [App.tsx]
    ([handleImagesSelected]) and of the cell rendering of
    [components/ResultsTable.tsx], with the properties the specification
    states about them.

    JavaScript strings are sequences of UTF-16 code units; they are
    modelled as lists of [N].  Effects (remote calls, timers, console
    output, React state updates) are threaded through an explicit
    [World] that also keeps an ordered log of them. *)

From Stdlib Require Import String Ascii DecimalString.
From Stdlib Require Import NArith ZArith Bool Arith Lia List.
Import ListNotations.

Set Warnings "-register-all".

(* ================================================================= *)
(** * JavaScript strings *)

(** A string is its sequence of UTF-16 code units. *)
Definition jsstring : Type := list N.

Fixpoint bytes_of (s : string) : list N :=
  match s with
  | EmptyString => []
  | String a r => N_of_ascii a :: bytes_of r
  end.

(** Code units of one code point (a surrogate pair above the BMP). *)
Definition units_of_code_point (cp : N) : list N :=
  if (cp <? 65536)%N then [cp]
  else [(55296 + (cp - 65536) / 1024)%N; (56320 + (cp - 65536) mod 1024)%N].

(** Decoding of the UTF-8 bytes of a source literal. *)
Fixpoint decode_utf8 (bs : list N) : list N :=
  match bs with
  | [] => []
  | b0 :: r =>
      if (b0 <? 128)%N then b0 :: decode_utf8 r
      else if (b0 <? 224)%N then
        match r with
        | b1 :: r1 => ((b0 - 192) * 64 + (b1 - 128))%N :: decode_utf8 r1
        | [] => [65533%N]
        end
      else if (b0 <? 240)%N then
        match r with
        | b1 :: b2 :: r2 =>
            ((b0 - 224) * 4096 + (b1 - 128) * 64 + (b2 - 128))%N :: decode_utf8 r2
        | _ => [65533%N]
        end
      else
        match r with
        | b1 :: b2 :: b3 :: r3 =>
            units_of_code_point
              ((b0 - 240) * 262144 + (b1 - 128) * 4096 + (b2 - 128) * 64 + (b3 - 128))%N
            ++ decode_utf8 r3
        | _ => [65533%N]
        end
  end.

(** The JavaScript string a literal of the source denotes. *)
Definition js (s : string) : jsstring := decode_utf8 (bytes_of s).

(** [a === b] on strings. *)
Fixpoint str_eqb (a b : jsstring) : bool :=
  match a, b with
  | [], [] => true
  | x :: a', y :: b' => (x =? y)%N && str_eqb a' b'
  | _, _ => false
  end.

(** [s.startsWith(p)] *)
Fixpoint startsWith (p s : jsstring) : bool :=
  match p, s with
  | [], _ => true
  | x :: p', y :: s' => (x =? y)%N && startsWith p' s'
  | _ :: _, [] => false
  end.

(** [s.endsWith(p)] *)
Definition endsWith (p s : jsstring) : bool := startsWith (rev p) (rev s).

(** [s.includes(p)] *)
Fixpoint includes (p s : jsstring) : bool :=
  startsWith p s ||
  match s with
  | [] => false
  | _ :: s' => includes p s'
  end.

(** [s.substr(start, len)] for non-negative arguments. *)
Definition substr (start len : nat) (s : jsstring) : jsstring :=
  firstn len (skipn start s).

(** WhiteSpace and LineTerminator code points, the ones [trim] removes. *)
Definition isWhiteSpace (c : N) : bool :=
  ((9 <=? c) && (c <=? 13) || (c =? 32) || (c =? 160) || (c =? 5760)
   || (8192 <=? c) && (c <=? 8202) || (c =? 8232) || (c =? 8233)
   || (c =? 8239) || (c =? 8287) || (c =? 12288) || (c =? 65279))%N.

Fixpoint trimStart (s : jsstring) : jsstring :=
  match s with
  | [] => []
  | c :: s' => if isWhiteSpace c then trimStart s' else s
  end.

Definition trimEnd (s : jsstring) : jsstring := rev (trimStart (rev s)).

(** [s.trim()] *)
Definition trim (s : jsstring) : jsstring := trimEnd (trimStart s).

(** A literal in which the double quote is written as an apostrophe. *)
Definition jsq (s : string) : jsstring :=
  map (fun c => if (c =? 39)%N then 34%N else c) (js s).

Definition dq : jsstring := [34%N].
Definition nl : jsstring := [10%N].

(** Lines joined by line feeds, as a multi-line template literal holds
    them. *)
Fixpoint lines (l : list jsstring) : jsstring :=
  match l with
  | [] => []
  | [x] => x
  | x :: rest => x ++ nl ++ lines rest
  end.

(** Decimal rendering of an integer, as a template literal interpolates
    it. *)
Definition string_of_nat (n : nat) : jsstring :=
  js (NilZero.string_of_uint (Nat.to_uint n)).

Definition string_of_Z (z : Z) : jsstring :=
  js (NilZero.string_of_int (Z.to_int z)).

(* ================================================================= *)
(** * JSON values *)

(** A number is kept as the decimal its text denotes,
    [(-1)^negative * digits * 10^exponent]. *)
Record Decimal : Type := mkDecimal {
  negative : bool;
  digits : N;
  exponent : Z
}.

Inductive JSON : Type :=
| JNull
| JBool (b : bool)
| JNumber (d : Decimal)
| JString (s : jsstring)
| JArray (elements : list JSON)
| JObject (members : list (jsstring * JSON)).

(** Whether the double nearest to the decimal is zero: [JSON.parse]
    rounds to binary64, where everything up to half the least subnormal
    [2^-1074] becomes zero. *)
Definition rounds_to_zero (d : Decimal) : bool :=
  if (0 <=? exponent d)%Z then (digits d =? 0)%N
  else (digits d * 2 ^ 1075 <=? 10 ^ Z.to_N (- exponent d))%N.

(** ToBoolean on the values [JSON.parse] produces. *)
Definition truthy (v : JSON) : bool :=
  match v with
  | JNull => false
  | JBool b => b
  | JNumber d => negb (rounds_to_zero d)
  | JString s => match s with [] => false | _ => true end
  | JArray _ => true
  | JObject _ => true
  end.

Definition isArray (v : JSON) : bool :=
  match v with JArray _ => true | _ => false end.

(** Own property lookup on an object; of two members with one key the
    later one is the value. *)
Fixpoint lookup (k : jsstring) (members : list (jsstring * JSON)) : option JSON :=
  match members with
  | [] => None
  | (k', v) :: rest =>
      match lookup k rest with
      | Some v' => Some v'
      | None => if str_eqb k k' then Some v else None
      end
  end.


(** What [JSON.parse] does with a text: a value, or a [SyntaxError] whose
    message is the engine's. *)
Inductive ParseResult : Type :=
| Parsed (v : JSON)
| Rejected (message : jsstring).

(* ================================================================= *)
(** * Errors, requests and the types of [types.ts] *)

(** The value of a field read off a caught error. *)
Inductive Field : Type :=
| Undefined
| Num (n : Z)
| Str (s : jsstring).

(** A thrown error, as far as the client looks at it: whether it is a
    [SyntaxError], its [status], [code] and [message]. *)
Record JsError : Type := mkJsError {
  isSyntaxError : bool;
  err_status : Field;
  err_code : Field;
  err_message : option jsstring
}.

(** [new Error(msg)] *)
Definition Error (msg : jsstring) : JsError :=
  mkJsError false Undefined Undefined (Some msg).

(** The [SyntaxError] that [JSON.parse] throws. *)
Definition SyntaxError (msg : jsstring) : JsError :=
  mkJsError true Undefined Undefined (Some msg).

(** How a call ends. *)
Inductive Completion : Type :=
| Returned (v : JSON)
| Thrown (e : JsError).

(** The argument of [ai.models.generateContent]. *)
Record Request : Type := mkRequest {
  req_model : jsstring;
  req_mimeType : jsstring;
  req_data : jsstring;
  req_text : jsstring
}.

(** How the awaited remote call settles: a response with its [text]
    (possibly undefined), or a rejection. *)
Inductive RemoteOutcome : Type :=
| Response (text : option jsstring)
| Failure (e : JsError).

(** [types.ts] declares a record of strings, numbers and nulls; at run
    time the field holds whatever the client returned. *)
Definition ExtractedData : Type := JSON.

Record TableRow : Type := mkTableRow {
  id : jsstring;
  data : ExtractedData;
  sourceImageName : jsstring;
  timestamp : jsstring
}.

Inductive ExtractionStatus : Type := IDLE | PROCESSING | SUCCESS | ERROR.

Record ProcessingState : Type := mkProcessingState {
  status : ExtractionStatus;
  message : option jsstring
}.

(* ================================================================= *)
(** * The world: effects and their log *)

Inductive Event : Type :=
| Requested (r : Request)                        (* generateContent called *)
| Settled (o : RemoteOutcome)                    (* its promise settled *)
| Waited (ms : Z)                                (* an awaited timer *)
| ConsoleWarn (msg : jsstring)
| ConsoleError (label : jsstring) (e : JsError)
| StatusSet (s : ProcessingState)                (* setProcessingState *)
| RowAppended (row : TableRow)                   (* setRows(prev => [...prev, row]) *)
| TimeoutSet (ms : Z) (s : ProcessingState).     (* setTimeout(() => setProcessingState(s), ms) *)

Record World : Type := mkWorld {
  calls : nat;                        (* remote calls made so far *)
  draws : nat;                        (* Math.random() calls so far *)
  clock : nat;                        (* new Date() calls so far *)
  rows : list TableRow;               (* the Table Store *)
  processingState : ProcessingState;
  log : list Event
}.

(** Computations over the world; [None] is a loop that ran out of fuel. *)
Definition M (A : Type) : Type := World -> option (A * World).

Definition ret {A : Type} (a : A) : M A := fun w => Some (a, w).

Definition bind {A B : Type} (m : M A) (f : A -> M B) : M B :=
  fun w => match m w with
           | Some (a, w') => f a w'
           | None => None
           end.

Notation "x <- m ;; k" := (bind m (fun x => k))
  (at level 61, m at next level, right associativity).
Notation "m ;;; k" := (bind m (fun _ => k))
  (at level 61, right associativity).

Definition emit (e : Event) : M unit :=
  fun w => Some (tt, mkWorld (calls w) (draws w) (clock w) (rows w)
                             (processingState w) (log w ++ [e])).

(** [await wait(ms)] and [await new Promise(r => setTimeout(r, ms))] *)
Definition wait (ms : Z) : M unit := emit (Waited ms).

Definition console_warn (msg : jsstring) : M unit := emit (ConsoleWarn msg).

Definition console_error (label : jsstring) (e : JsError) : M unit :=
  emit (ConsoleError label e).

(* ================================================================= *)
(** * [JSON.stringify] on an array of strings *)

Definition hex_digit (n : N) : N := if (n <? 10)%N then (48 + n)%N else (87 + n)%N.

(** The escape [\uXXXX] of a code unit. *)
Definition unicode_escape (c : N) : jsstring :=
  [92; 117; hex_digit (c / 4096); hex_digit ((c / 256) mod 16);
   hex_digit ((c / 16) mod 16); hex_digit (c mod 16)]%N.

Definition isHighSurrogate (c : N) : bool := ((55296 <=? c) && (c <=? 56319))%N.
Definition isLowSurrogate (c : N) : bool := ((56320 <=? c) && (c <=? 57343))%N.

Fixpoint quote_chars (s : jsstring) : jsstring :=
  match s with
  | [] => []
  | c :: r =>
      if (c =? 8)%N then js "\b" ++ quote_chars r
      else if (c =? 9)%N then js "\t" ++ quote_chars r
      else if (c =? 10)%N then js "\n" ++ quote_chars r
      else if (c =? 12)%N then js "\f" ++ quote_chars r
      else if (c =? 13)%N then js "\r" ++ quote_chars r
      else if (c =? 34)%N then [92; 34]%N ++ quote_chars r
      else if (c =? 92)%N then [92; 92]%N ++ quote_chars r
      else if (c <? 32)%N then unicode_escape c ++ quote_chars r
      else if isHighSurrogate c then
        match r with
        | d :: r' =>
            if isLowSurrogate d then c :: d :: quote_chars r'
            else unicode_escape c ++ quote_chars r
        | [] => unicode_escape c
        end
      else if isLowSurrogate c then unicode_escape c ++ quote_chars r
      else c :: quote_chars r
  end.

Definition quote (s : jsstring) : jsstring := dq ++ quote_chars s ++ dq.

Fixpoint join (sep : jsstring) (l : list jsstring) : jsstring :=
  match l with
  | [] => []
  | [x] => x
  | x :: rest => x ++ sep ++ join sep rest
  end.

(** [JSON.stringify(headers)] for [headers : string[]]. *)
Definition JSON_stringify (headers : list jsstring) : jsstring :=
  js "[" ++ join (js ",") (map quote headers) ++ js "]".

(* ================================================================= *)
(** * The Extraction Client ([services/geminiService.ts]) *)

Definition fence : jsstring := js "```".

(** [text.replace(/^```(json)?/, "")] *)
Definition strip_opening_fence (text : jsstring) : jsstring :=
  if startsWith fence text then
    let r := skipn 3 text in
    if startsWith (js "json") r then skipn 4 r else r
  else text.

(** [text.replace(/```$/, "")] *)
Definition strip_closing_fence (text : jsstring) : jsstring :=
  if endsWith fence text then firstn (length text - 3) text else text.

(** Lines 67-70: the text handed to [JSON.parse]. *)
Definition clean (text : jsstring) : jsstring :=
  let text := trim text in
  if startsWith fence text
  then trim (strip_closing_fence (strip_opening_fence text))
  else text.

Definition model : jsstring := js "gemini-2.5-flash-image".

Definition base_prompt : jsstring :=
  lines [
    js "";
    js "    Analyze the provided image. It contains data such as a receipt, invoice, business card, or a table.";
    js "    Extract the key information into a flat JSON object (key-value pairs).";
    js "    ";
    js "    Rules:";
    js "    1. Keys should be clean, readable headers.";
    js "    2. Values should be the extracted text.";
    js "    3. Format dates as YYYY-MM-DD if possible.";
    js "    4. Format currency as simple numbers (e.g., 10.50) where possible, or keep the symbol if ambiguous.";
    jsq "    5. CRITICAL: Remove the string 'RC', 'RewardCash', '$', 'HKD' or any currency codes from numeric values. Return only the number.";
    js "    6. Return ONLY the raw JSON object. Do not include Markdown formatting or conversational text.";
    js "  " ].

Definition headers_clause (existingHeaders : list jsstring) : jsstring :=
  lines [
    js "";
    js "    ";
    js "    CRITICAL: The user has already established a table with the following headers:";
    js "    " ++ JSON_stringify existingHeaders;
    js "    ";
    js "    You MUST map the extracted data to these EXACT keys.";
    js "    Do NOT create new keys.";
    js "    If a specific category is not found in the image, set the value to null or empty string.";
    js "    " ].

Definition build_prompt (existingHeaders : list jsstring) : jsstring :=
  if (0 <? length existingHeaders)%nat
  then base_prompt ++ headers_clause existingHeaders
  else base_prompt.

Definition maxRetries : nat := 5.

(** [x === 429] *)
Definition is_429 (x : Field) : bool :=
  match x with
  | Num n => (n =? 429)%Z
  | _ => false
  end.

(** Lines 83-86. *)
Definition isRateLimit (error : JsError) : bool :=
  is_429 (err_status error) || is_429 (err_code error) ||
  match err_message error with
  | Some m => includes (js "429") m
  | None => false
  end.

(** [Math.pow(2, attempt + 1) * 1000] *)
Definition backoff (attempt : nat) : Z := 2 ^ (Z.of_nat attempt + 1) * 1000.

Definition retry_warning (delay : Z) (attempt : nat) : jsstring :=
  js "Rate limit hit. Retrying in " ++ string_of_Z delay ++ js "ms... (Attempt "
  ++ string_of_nat attempt ++ js "/" ++ string_of_nat maxRetries ++ js ")".

Definition no_data : JsError := Error (js "No data returned from AI").

Definition parse_failure : JsError :=
  Error (js "Failed to parse the AI response as valid JSON. Please try again.").

(** Lines 98-101: what the catch block throws when it does not retry. *)
Definition rethrow (error : JsError) : JsError :=
  if isSyntaxError error then parse_failure else error.

Section Client.

(** The remote model: how the [k]-th call of the process settles. *)
Variable generateContent : nat -> Request -> RemoteOutcome.

(** The engine's [JSON.parse]. *)
Variable JSON_parse : jsstring -> ParseResult.

Definition call_remote (req : Request) : M RemoteOutcome :=
  fun w =>
    let o := generateContent (calls w) req in
    Some (o, mkWorld (S (calls w)) (draws w) (clock w) (rows w)
                     (processingState w)
                     (log w ++ [Requested req; Settled o])).

(** Lines 63-79: the part of the [try] block after the awaited call. *)
Definition try_block (o : RemoteOutcome) : Completion :=
  match o with
  | Failure e => Thrown e
  | Response None => Thrown no_data
  | Response (Some []) => Thrown no_data
  | Response (Some text) =>
      match JSON_parse (clean text) with
      | Rejected msg => Thrown (SyntaxError msg)
      | Parsed (JArray elements) =>
          match elements with
          | first :: _ => Returned (if truthy first then first else JObject [])
          | [] => Returned (JObject [])
          end
      | Parsed data => Returned data
      end
  end.

(** The [while (true)] loop of lines 44-103. *)
Fixpoint retry_loop (fuel : nat) (req : Request) (attempt : nat) : M Completion :=
  match fuel with
  | O => fun _ => None
  | S fuel' =>
      o <- call_remote req ;;
      match try_block o with
      | Returned v => ret (Returned v)
      | Thrown error =>
          if isRateLimit error && (attempt <? maxRetries)%nat then
            let attempt := (attempt + 1)%nat in
            let delay := backoff attempt in
            console_warn (retry_warning delay attempt) ;;;
            wait delay ;;;
            retry_loop fuel' req attempt
          else
            console_error (js "Gemini Extraction Error:") error ;;;
            ret (Thrown (rethrow error))
      end
  end.

Definition extractDataFromImage (base64Image : jsstring)
    (existingHeaders : list jsstring) : M Completion :=
  retry_loop (S maxRetries)
    (mkRequest model (js "image/jpeg") base64Image (build_prompt existingHeaders)) 0.

End Client.

(* ================================================================= *)
(** * A reference [JSON.parse]

    The JSON grammar of ECMA-404, as [JSON.parse] accepts it, over code
    units.  It instantiates the engine in the examples; the general
    theorems hold for every engine. *)

Module Reference.

Definition isJsonSpace (c : N) : bool :=
  ((c =? 32) || (c =? 9) || (c =? 10) || (c =? 13))%N.

Fixpoint skip_space (s : jsstring) : jsstring :=
  match s with
  | [] => []
  | c :: r => if isJsonSpace c then skip_space r else s
  end.

Definition isDigit (c : N) : bool := ((48 <=? c) && (c <=? 57))%N.

(** Reads digits onto [acc]; also counts them. *)
Fixpoint take_digits (s : jsstring) (acc : N) (count : nat) : N * nat * jsstring :=
  match s with
  | [] => (acc, count, [])
  | c :: r =>
      if isDigit c then take_digits r (acc * 10 + (c - 48))%N (S count)
      else (acc, count, s)
  end.

Definition parse_int (s : jsstring) : option (N * jsstring) :=
  match s with
  | [] => None
  | c :: r =>
      if (c =? 48)%N then Some (0%N, r)
      else if isDigit c then
        let '(m, _, r') := take_digits s 0%N 0%nat in Some (m, r')
      else None
  end.

Definition parse_fraction (m : N) (s : jsstring) : option (N * nat * jsstring) :=
  match s with
  | c :: r =>
      if (c =? 46)%N then
        let '(m', k, r') := take_digits r m 0%nat in
        match k with
        | O => None
        | _ => Some (m', k, r')
        end
      else Some (m, 0%nat, s)
  | [] => Some (m, 0%nat, [])
  end.

Definition parse_sign (s : jsstring) : bool * jsstring :=
  match s with
  | c :: r =>
      if (c =? 45)%N then (true, r)
      else if (c =? 43)%N then (false, r)
      else (false, s)
  | [] => (false, [])
  end.

Definition parse_exponent (s : jsstring) : option (Z * jsstring) :=
  match s with
  | c :: r =>
      if ((c =? 101) || (c =? 69))%N then
        let '(neg, r1) := parse_sign r in
        let '(e, k, r2) := take_digits r1 0%N 0%nat in
        match k with
        | O => None
        | _ => Some (if neg then (- Z.of_N e)%Z else Z.of_N e, r2)
        end
      else Some (0%Z, s)
  | [] => Some (0%Z, [])
  end.

Definition parse_number (s : jsstring) : option (JSON * jsstring) :=
  let '(neg, s1) :=
    match s with
    | c :: r => if (c =? 45)%N then (true, r) else (false, s)
    | [] => (false, [])
    end in
  match parse_int s1 with
  | None => None
  | Some (m, s2) =>
      match parse_fraction m s2 with
      | None => None
      | Some (m', k, s3) =>
          match parse_exponent s3 with
          | None => None
          | Some (e, s4) =>
              Some (JNumber (mkDecimal neg m' (e - Z.of_nat k)), s4)
          end
      end
  end.

Definition hex_value (c : N) : option N :=
  if isDigit c then Some (c - 48)%N
  else if ((97 <=? c) && (c <=? 102))%N then Some (c - 87)%N
  else if ((65 <=? c) && (c <=? 70))%N then Some (c - 55)%N
  else None.

Definition simple_escape (c : N) : option N :=
  if (c =? 34)%N then Some 34%N
  else if (c =? 92)%N then Some 92%N
  else if (c =? 47)%N then Some 47%N
  else if (c =? 98)%N then Some 8%N
  else if (c =? 102)%N then Some 12%N
  else if (c =? 110)%N then Some 10%N
  else if (c =? 114)%N then Some 13%N
  else if (c =? 116)%N then Some 9%N
  else None.

(** The characters of a string after its opening quote; [acc] holds
    the ones read, latest first. *)
Fixpoint parse_chars (s : jsstring) (acc : jsstring) : option (jsstring * jsstring) :=
  match s with
  | [] => None
  | c :: r =>
      if (c =? 34)%N then Some (rev acc, r)
      else if (c =? 92)%N then
        match r with
        | [] => None
        | e :: r1 =>
            if (e =? 117)%N then
              match r1 with
              | h1 :: h2 :: h3 :: h4 :: r2 =>
                  match hex_value h1, hex_value h2, hex_value h3, hex_value h4 with
                  | Some a, Some b, Some c', Some d =>
                      parse_chars r2 ((a * 4096 + b * 256 + c' * 16 + d)%N :: acc)
                  | _, _, _, _ => None
                  end
              | _ => None
              end
            else
              match simple_escape e with
              | Some x => parse_chars r1 (x :: acc)
              | None => None
              end
        end
      else if (c <? 32)%N then None
      else parse_chars r (c :: acc)
  end.

Definition parse_literal (word : jsstring) (v : JSON) (s : jsstring)
  : option (JSON * jsstring) :=
  if startsWith word s then Some (v, skipn (List.length word) s) else None.

Fixpoint parse_value (fuel : nat) (s : jsstring) : option (JSON * jsstring) :=
  match fuel with
  | O => None
  | S fuel' =>
      match skip_space s with
      | [] => None
      | c :: r =>
          if (c =? 123)%N then
            match skip_space r with
            | [] => None
            | c' :: r' =>
                if (c' =? 125)%N then Some (JObject [], r')
                else parse_members fuel' (c' :: r') []
            end
          else if (c =? 91)%N then
            match skip_space r with
            | [] => None
            | c' :: r' =>
                if (c' =? 93)%N then Some (JArray [], r')
                else parse_elements fuel' (c' :: r') []
            end
          else if (c =? 34)%N then
            match parse_chars r [] with
            | Some (str, r') => Some (JString str, r')
            | None => None
            end
          else if (c =? 116)%N then parse_literal (js "true") (JBool true) (c :: r)
          else if (c =? 102)%N then parse_literal (js "false") (JBool false) (c :: r)
          else if (c =? 110)%N then parse_literal (js "null") JNull (c :: r)
          else parse_number (c :: r)
      end
  end
with parse_elements (fuel : nat) (s : jsstring) (acc : list JSON)
  : option (JSON * jsstring) :=
  match fuel with
  | O => None
  | S fuel' =>
      match parse_value fuel' s with
      | None => None
      | Some (v, r) =>
          match skip_space r with
          | [] => None
          | c :: r' =>
              if (c =? 44)%N then parse_elements fuel' r' (v :: acc)
              else if (c =? 93)%N then Some (JArray (rev (v :: acc)), r')
              else None
          end
      end
  end
with parse_members (fuel : nat) (s : jsstring) (acc : list (jsstring * JSON))
  : option (JSON * jsstring) :=
  match fuel with
  | O => None
  | S fuel' =>
      match skip_space s with
      | [] => None
      | c :: r =>
          if (c =? 34)%N then
            match parse_chars r [] with
            | None => None
            | Some (k, r1) =>
                match skip_space r1 with
                | [] => None
                | c1 :: r2 =>
                    if (c1 =? 58)%N then
                      match parse_value fuel' r2 with
                      | None => None
                      | Some (v, r3) =>
                          match skip_space r3 with
                          | [] => None
                          | c3 :: r4 =>
                              if (c3 =? 44)%N then parse_members fuel' r4 ((k, v) :: acc)
                              else if (c3 =? 125)%N
                              then Some (JObject (rev ((k, v) :: acc)), r4)
                              else None
                          end
                      end
                    else None
                end
            end
          else None
      end
  end.

(** The value of a whole text, if it is one JSON text. *)
Definition value_of (text : jsstring) : option JSON :=
  match parse_value (2 * List.length text + 2) text with
  | Some (v, r) =>
      match skip_space r with
      | [] => Some v
      | _ :: _ => None
      end
  | None => None
  end.

(** An engine that words its [SyntaxError]s by [wording]. *)
Definition JSON_parse (wording : jsstring -> jsstring) (text : jsstring) : ParseResult :=
  match value_of text with
  | Some v => Parsed v
  | None => Rejected (wording text)
  end.

(** V8's wording for a text it rejects at its first character:
    the character, then the text (its first ten code units when it has
    more than twenty). *)
Definition v8_unexpected_token (text : jsstring) : jsstring :=
  js "Unexpected token '" ++ firstn 1 text ++ js "', " ++
  (if (List.length text <? 21)%nat
   then dq ++ text ++ dq
   else dq ++ firstn 10 text ++ dq ++ js "...")
  ++ js " is not valid JSON".

Definition num (n : N) : JSON := JNumber (mkDecimal false n 0).

End Reference.

(* ================================================================= *)
(** * The Batch Orchestrator ([App.tsx]) *)

Notation "' pat <- m ;; k" := (bind m (fun pat => k))
  (at level 61, pat pattern, m at next level, right associativity).

Record Image : Type := mkImage {
  base64 : jsstring;
  fileName : jsstring
}.

Definition FIXED_HEADERS : list jsstring :=
  [ js "日期";
    js "兑换第三方奖賞积分所得";
    js "推广";
    js "Travel Guru会员计划";
    js "汇丰Pulse银联双币卡额外奖赏";
    js "最红自主奖赏";
    js "基本消费";
    js "您已赚取" ].

Definition headers : list jsstring := FIXED_HEADERS.

Definition idle : ProcessingState := mkProcessingState IDLE None.

Definition starting (n : nat) : ProcessingState :=
  mkProcessingState PROCESSING
    (Some (js "Starting processing of " ++ string_of_nat n ++ js " image(s)...")).

Definition progress (i n : nat) (name : jsstring) : ProcessingState :=
  mkProcessingState PROCESSING
    (Some (js "Processing " ++ string_of_nat (i + 1) ++ js " of " ++ string_of_nat n
           ++ js ": " ++ name)).

Definition summary (processedCount n failed : nat) : ProcessingState :=
  let errorMsg :=
    if (0 <? failed)%nat then js " (" ++ string_of_nat failed ++ js " failed)" else js "" in
  mkProcessingState SUCCESS
    (Some (js "Successfully processed " ++ string_of_nat processedCount ++ js " of "
           ++ string_of_nat n ++ js " images" ++ errorMsg ++ js ".")).

Definition total_failure : ProcessingState :=
  mkProcessingState ERROR (Some (js "Failed to process selected images.")).

(** Lines 176-184: the state set once the loop is over. *)
Definition final_state (processedCount n failed : nat) : ProcessingState :=
  if (0 <? processedCount)%nat then summary processedCount n failed else total_failure.

Definition setProcessingState (s : ProcessingState) : M unit :=
  fun w => Some (tt, mkWorld (calls w) (draws w) (clock w) (rows w) s
                             (log w ++ [StatusSet s])).

(** [setRows(prev => [...prev, newRow])] *)
Definition appendRow (row : TableRow) : M unit :=
  fun w => Some (tt, mkWorld (calls w) (draws w) (clock w) (rows w ++ [row])
                             (processingState w) (log w ++ [RowAppended row])).

(** [setTimeout(() => setProcessingState(s), ms)], not awaited. *)
Definition setTimeout (ms : Z) (s : ProcessingState) : M unit := emit (TimeoutSet ms s).

(** What happens when a timer that was set fires. *)
Definition fire (e : Event) : M unit :=
  match e with
  | TimeoutSet _ s => setProcessingState s
  | _ => ret tt
  end.

Section App.

Variable generateContent : nat -> Request -> RemoteOutcome.
Variable JSON_parse : jsstring -> ParseResult.

(** [Math.random().toString(36)] at the [k]-th draw. *)
Variable Math_random_36 : nat -> jsstring.

(** [new Date().toISOString()] at the [k]-th reading of the clock. *)
Variable Date_toISOString : nat -> jsstring.

Definition generateId : M jsstring :=
  fun w => Some (substr 2 9 (Math_random_36 (draws w)),
                 mkWorld (calls w) (S (draws w)) (clock w) (rows w)
                         (processingState w) (log w)).

Definition now : M jsstring :=
  fun w => Some (Date_toISOString (clock w),
                 mkWorld (calls w) (draws w) (S (clock w)) (rows w)
                         (processingState w) (log w)).

(** Lines 150-166: the [try]/[catch] around one extraction.  It gives
    back the new values of [processedCount] and [errors]. *)
Definition process (image : Image) (processedCount : nat) (errors : list jsstring)
  : M (nat * list jsstring) :=
  c <- extractDataFromImage generateContent JSON_parse (base64 image) headers ;;
  match c with
  | Returned newData =>
      newId <- generateId ;;
      stamp <- now ;;
      appendRow (mkTableRow newId newData (fileName image) stamp) ;;;
      ret ((processedCount + 1)%nat, errors)
  | Thrown error =>
      console_error (js "Error processing " ++ fileName image ++ js ":") error ;;;
      ret (processedCount, errors ++ [fileName image])
  end.

(** Lines 168-173. *)
Definition throttle (i n : nat) : M unit :=
  if (i <? n - 1)%nat then wait 5000 else ret tt.

(** The [for] loop of lines 143-174 from index [i] on, [rest] being
    [images.slice(i)] and [n] being [images.length].  It gives back the
    final values of [processedCount] and [errors]. *)
Fixpoint for_loop (n i : nat) (rest : list Image)
    (processedCount : nat) (errors : list jsstring)
  : M (nat * list jsstring) :=
  match rest with
  | [] => ret (processedCount, errors)
  | image :: rest' =>
      setProcessingState (progress i n (fileName image)) ;;;
      '(processedCount', errors') <- process image processedCount errors ;;
      throttle i n ;;;
      for_loop n (i + 1) rest' processedCount' errors'
  end.

(** [handleImagesSelected], lines 134-191. *)
Definition handleImagesSelected (images : list Image) : M unit :=
  if (List.length images =? 0)%nat then ret tt
  else
    setProcessingState (starting (List.length images)) ;;;
    '(processedCount, errors) <- for_loop (List.length images) 0 images 0 [] ;;
    setProcessingState
      (final_state processedCount (List.length images) (List.length errors)) ;;;
    setTimeout 4000 idle.

End App.

(* ================================================================= *)
(** * The table ([components/ResultsTable.tsx]) *)

(** Lines 47-53: what the cell of [header] applies [String] to, or
    nothing where it shows the placeholder; [data] being an object with
    the given members. *)
Definition cell (members : list (jsstring * JSON)) (header : jsstring) : option JSON :=
  match lookup header members with
  | Some JNull => None
  | Some v => Some v
  | None => None
  end.

(** The data cells of one table row, one per header. *)
Definition cells (headers : list jsstring) (members : list (jsstring * JSON))
  : list (option JSON) :=
  map (cell members) headers.

(** The two openings the client strips: the bare marker and the marker
    with the tag [json]. *)
Definition stripped_opening (opening : jsstring) : Prop :=
  opening = fence \/ opening = fence ++ js "json".

(* ================================================================= *)
(** * The runs of the Extraction Client *)

(** What the loop logs in a round that ends in a retry: the call, its
    settling, the warning and the awaited delay. *)
Definition retry_round (req : Request) (o : RemoteOutcome) (attempt : nat) : list Event :=
  [Requested req; Settled o;
   ConsoleWarn (retry_warning (backoff attempt) attempt); Waited (backoff attempt)].

(** What it logs in a round that ends in a throw. *)
Definition throw_round (req : Request) (o : RemoteOutcome) (error : JsError) : list Event :=
  [Requested req; Settled o; ConsoleError (js "Gemini Extraction Error:") error].

(** The delays a log awaits, in order. *)
Fixpoint waits (evs : list Event) : list Z :=
  match evs with
  | [] => []
  | Waited ms :: rest => ms :: waits rest
  | _ :: rest => waits rest
  end.

(** The requests a log issues, in order. *)
Fixpoint requests (evs : list Event) : list Request :=
  match evs with
  | [] => []
  | Requested r :: rest => r :: requests rest
  | _ :: rest => requests rest
  end.

(** Nothing of the world but the call counter and the log differs. *)
Definition same_store (w w' : World) : Prop :=
  rows w' = rows w /\ draws w' = draws w /\ clock w' = clock w
  /\ processingState w' = processingState w.

Section Runs.

Variable generateContent : nat -> Request -> RemoteOutcome.
Variable JSON_parse : jsstring -> ParseResult.

(** [ClientRun req k attempt c evs k']: entered with [attempt] when
    [k] calls have been made, the loop ends as [c], having logged
    [evs], when [k'] calls have been made. *)
Inductive ClientRun (req : Request) : nat -> nat -> Completion -> list Event -> nat -> Prop :=
| run_return (k attempt : nat) (v : JSON) :
    try_block JSON_parse (generateContent k req) = Returned v ->
    ClientRun req k attempt (Returned v)
              [Requested req; Settled (generateContent k req)] (S k)
| run_retry (k attempt : nat) (error : JsError) (c : Completion)
            (evs : list Event) (k' : nat) :
    try_block JSON_parse (generateContent k req) = Thrown error ->
    isRateLimit error = true ->
    (attempt < maxRetries)%nat ->
    ClientRun req (S k) (attempt + 1) c evs k' ->
    ClientRun req k attempt c
              (retry_round req (generateContent k req) (attempt + 1) ++ evs) k'
| run_throw (k attempt : nat) (error : JsError) :
    try_block JSON_parse (generateContent k req) = Thrown error ->
    isRateLimit error && (attempt <? maxRetries)%nat = false ->
    ClientRun req k attempt (Thrown (rethrow error))
              (throw_round req (generateContent k req) error) (S k).

End Runs.

Definition initial : World := mkWorld 0 0 0 [] idle [].

(** The request the client sends for an image and a column list. *)
Definition request_for (base64Image : jsstring) (existingHeaders : list jsstring) : Request :=
  mkRequest model (js "image/jpeg") base64Image (build_prompt existingHeaders).

(** The world after a round: one more call, and the round in the log. *)
Definition after_round (w : World) (round : list Event) : World :=
  mkWorld (S (calls w)) (draws w) (clock w) (rows w) (processingState w)
          (log w ++ round).

(* ================================================================= *)
(** * Runs of the orchestrator, for the statements *)

Definition failed (c : Completion) : bool :=
  match c with
  | Thrown _ => true
  | Returned _ => false
  end.

(** How many extractions of a history threw, and how many returned. *)
Definition failure_count (history : list Completion) : nat :=
  List.length (filter failed history).

Definition success_count (history : list Completion) : nat :=
  List.length (filter (fun c => negb (failed c)) history).

(** File name and record of the images whose extraction returned, in
    the order of the images. *)
Fixpoint extracted (images : list Image) (history : list Completion)
  : list (jsstring * JSON) :=
  match images, history with
  | image :: images', Returned v :: history' =>
      (fileName image, v) :: extracted images' history'
  | _ :: images', Thrown _ :: history' => extracted images' history'
  | _, _ => []
  end.

(** File names of the images whose extraction threw, in that order. *)
Fixpoint failed_names (images : list Image) (history : list Completion)
  : list jsstring :=
  match images, history with
  | image :: images', Thrown _ :: history' =>
      fileName image :: failed_names images' history'
  | _ :: images', Returned _ :: history' => failed_names images' history'
  | _, _ => []
  end.

Definition record_of (row : TableRow) : jsstring * JSON :=
  (sourceImageName row, data row).

(** The rows a log appends, in order. *)
Fixpoint appended (evs : list Event) : list TableRow :=
  match evs with
  | [] => []
  | RowAppended row :: rest => row :: appended rest
  | _ :: rest => appended rest
  end.

(** The remote calls and their settlings in a log, in order. *)
Fixpoint call_events (evs : list Event) : list Event :=
  match evs with
  | [] => []
  | Requested r :: rest => Requested r :: call_events rest
  | Settled o :: rest => Settled o :: call_events rest
  | _ :: rest => call_events rest
  end.

(** Calls one at a time: every call settles before the next is made. *)
Fixpoint one_at_a_time (calls : list Event) : bool :=
  match calls with
  | [] => true
  | Requested _ :: Settled _ :: rest => one_at_a_time rest
  | _ => false
  end.

(** The inter-request delay after the image of index [i] among [n]. *)
Definition pause (i n : nat) : list Event :=
  if (i <? n - 1)%nat then [Waited 5000] else [].

(** What the orchestrator logs once an extraction has ended: the row it
    appends, or the error it reports. *)
Inductive Outcome (image : Image) : Completion -> Event -> Prop :=
| outcome_row (v : JSON) (row : TableRow) :
    data row = v ->
    sourceImageName row = fileName image ->
    Outcome image (Returned v) (RowAppended row)
| outcome_error (error : JsError) :
    Outcome image (Thrown error)
            (ConsoleError (js "Error processing " ++ fileName image ++ js ":") error).

Section Loops.

Variable generateContent : nat -> Request -> RemoteOutcome.
Variable JSON_parse : jsstring -> ParseResult.

(** [LoopRun n i images k history segments k']: from index [i] on and
    with [k] calls made, the loop over [images] logs one segment per
    image: the progress message, the events of the extraction, its
    outcome and the pause; the extractions end as [history] says, with
    [k'] calls made in the end. *)
Inductive LoopRun (n : nat)
  : nat -> list Image -> nat -> list Completion -> list (list Event) -> nat -> Prop :=
| loop_done (i k : nat) : LoopRun n i [] k [] [] k
| loop_step (i : nat) (image : Image) (rest : list Image) (k k1 k' : nat)
            (c : Completion) (client : list Event) (outcome : Event)
            (history : list Completion) (segments : list (list Event)) :
    ClientRun generateContent JSON_parse (request_for (base64 image) headers)
              k 0 c client k1 ->
    Outcome image c outcome ->
    LoopRun n (i + 1) rest k1 history segments k' ->
    LoopRun n i (image :: rest) k (c :: history)
            ((StatusSet (progress i n (fileName image))
              :: client ++ [outcome] ++ pause i n) :: segments) k'.

End Loops.

(** How often a log awaits the inter-request delay. *)
Definition pauses (evs : list Event) : nat := count_occ Z.eq_dec (waits evs) 5000%Z.

(* ================================================================= *)
(** * Environments for the examples *)

(** The reference parser with V8's wording. *)
Definition reference_parse : jsstring -> ParseResult :=
  Reference.JSON_parse Reference.v8_unexpected_token.

(** A remote that answers every call with the same text. *)
Definition answering (text : jsstring) : nat -> Request -> RemoteOutcome :=
  fun _ _ => Response (Some text).

(** The error of a rejected call: status 429. *)
Definition limited_error : JsError :=
  mkJsError false (Num 429) Undefined (Some (js "Resource has been exhausted")).

(** A remote that rejects every call as rate limited. *)
Definition always_limited : nat -> Request -> RemoteOutcome :=
  fun _ _ => Failure limited_error.

Definition sample_image : jsstring := js "aGVsbG8=".

Definition object_text : jsstring := jsq "{'a':1}".

Definition object_value : JSON := JObject [(js "a", Reference.num 1)].

(** Three images and a remote that rejects the second one, for good or
    as rate limited. *)
Definition three_images : list Image :=
  [mkImage (js "Zmlyc3Q=") (js "a.jpg");
   mkImage (js "c2Vjb25k") (js "b.jpg");
   mkImage (js "dGhpcmQ=") (js "c.jpg")].

Definition second_rejected (error : JsError) : nat -> Request -> RemoteOutcome :=
  fun _ req =>
    if str_eqb (req_data req) (js "c2Vjb25k") then Failure error
    else Response (Some object_text).

Definition sample_random : nat -> jsstring := fun _ => js "0.4fzyo82mvyr".

Definition sample_clock : nat -> jsstring := fun _ => js "2024-01-05T10:00:00.000Z".



(** Texts of the examples: an object in a fence tagged [json], the same
    in a fence tagged [javascript], and two lists. *)
Definition fenced_body : jsstring := nl ++ object_text ++ nl.

Definition fenced_json_text : jsstring :=
  [] ++ ((fence ++ js "json") ++ fenced_body ++ fence) ++ nl.

Definition fenced_javascript_text : jsstring :=
  js "```javascript" ++ nl ++ object_text ++ nl ++ js "```".

Definition list_text : jsstring := jsq "[{'a':1},{'a':2}]".

Definition null_first_text : jsstring := jsq "[null,{'a':1}]".

(* ================================================================= *)
(** * Reading the table: exports ([App.tsx]) and cells ([ResultsTable.tsx]) *)

(** A computation that may throw a [TypeError]. *)
Inductive Try (A : Type) : Type :=
| Ok (a : A)
| RaisedTypeError.

Arguments Ok {A} a.
Arguments RaisedTypeError {A}.

(** [f] over a list from left to right, as [Array.prototype.map] calls
    it; the first throw ends it. *)
Fixpoint try_map {A B : Type} (f : A -> Try B) (l : list A) : Try (list B) :=
  match l with
  | [] => Ok []
  | x :: rest =>
      match f x with
      | RaisedTypeError => RaisedTypeError
      | Ok y =>
          match try_map f rest with
          | RaisedTypeError => RaisedTypeError
          | Ok ys => Ok (y :: ys)
          end
      end
  end.

(** [data[header]], for a header that names no index, no [length] and
    no inherited member, as is every header of [FIXED_HEADERS]: reading
    off [null] throws, an object gives its own property or undefined,
    and every other value gives undefined. *)
Definition read (data : JSON) (header : jsstring) : Try (option JSON) :=
  match data with
  | JNull => RaisedTypeError
  | JObject members => Ok (lookup header members)
  | _ => Ok None
  end.


Definition tab : jsstring := [9%N].

(** [s.split(sep)] for a separator of one code unit. *)
Fixpoint split (sep : N) (s : jsstring) : list jsstring :=
  match s with
  | [] => [[]]
  | c :: r =>
      if (c =? sep)%N then [] :: split sep r
      else match split sep r with
           | piece :: pieces => (c :: piece) :: pieces
           | [] => [[c]]
           end
  end.

(** [str.replace(/[\t\n\r]/g, ' ')] *)
Definition sanitize (str : jsstring) : jsstring :=
  map (fun c => if ((c =? 9) || (c =? 10) || (c =? 13))%N then 32%N else c) str.

(** Line 219: [str.replace] of every double quote by two of them. *)
Definition double_quotes (str : jsstring) : jsstring :=
  flat_map (fun c => if (c =? 34)%N then [34; 34]%N else [c]) str.

(** Lines 218-221: the text of a CSV field. *)
Definition quote_if_needed (str : jsstring) : jsstring :=
  if includes (js ",") str || includes dq str || includes nl str
  then dq ++ double_quotes str ++ dq
  else str.

Section TableReaders.

(** [String(x)] on a number: the engine's rendering of the double. *)
Variable Number_toString : Decimal -> jsstring.

(** [String(v)] on the values [JSON.parse] produces; an array is its
    elements joined by commas, null elements being empty. *)
Fixpoint ToString (v : JSON) : jsstring :=
  match v with
  | JNull => js "null"
  | JBool true => js "true"
  | JBool false => js "false"
  | JNumber d => Number_toString d
  | JString s => s
  | JArray elements =>
      join (js ",")
        ((fix each (l : list JSON) : list jsstring :=
            match l with
            | [] => []
            | JNull :: rest => [] :: each rest
            | x :: rest => ToString x :: each rest
            end) elements)
  | JObject _ => js "[object Object]"
  end.

(** Lines 199-202: a cell of the text for the clipboard. *)
Definition tsv_cell (val : option JSON) : jsstring :=
  match val with
  | Some v => if truthy v then sanitize (ToString v) else []
  | None => []
  end.

(** Lines 215-222. *)
Definition escapeCsv (val : option JSON) : jsstring :=
  match val with
  | None => []
  | Some JNull => []
  | Some v => quote_if_needed (ToString v)
  end.

(** [ResultsTable.tsx], lines 49-51: the text of a cell, or nothing
    where the placeholder stands. *)
Definition shown (val : option JSON) : option jsstring :=
  match val with
  | None => None
  | Some JNull => None
  | Some v => Some (ToString v)
  end.

(** One cell per header off the data of a row, each made by [render]. *)
Definition row_cells {A : Type} (render : option JSON -> A) (row : TableRow)
  : Try (list A) :=
  try_map (fun header =>
             match read (data row) header with
             | Ok val => Ok (render val)
             | RaisedTypeError => RaisedTypeError
             end) headers.

(** Lines 197-206: the value of [tsv] in [copyToClipboard], reached when
    there are rows. *)
Definition tsv (rows : list TableRow) : Try jsstring :=
  let headerRow := join tab headers in
  match try_map (fun row =>
                   match row_cells tsv_cell row with
                   | Ok cells => Ok (join tab cells)
                   | RaisedTypeError => RaisedTypeError
                   end) rows with
  | Ok dataRows => Ok (headerRow ++ nl ++ join nl dataRows)
  | RaisedTypeError => RaisedTypeError
  end.

(** Lines 224-229: the value of [csvContent] in [downloadCSV], reached
    when there are rows. *)
Definition csvContent (rows : list TableRow) : Try jsstring :=
  let headerRow := join (js ",") (map (fun h => escapeCsv (Some (JString h))) headers) in
  match try_map (fun row =>
                   match row_cells escapeCsv row with
                   | Ok cells => Ok (join (js ",") cells)
                   | RaisedTypeError => RaisedTypeError
                   end) rows with
  | Ok dataRows =>
      Ok (js "data:text/csv;charset=utf-8," ++ headerRow ++ nl ++ join nl dataRows)
  | RaisedTypeError => RaisedTypeError
  end.

(** [ResultsTable.tsx], lines 42-58: the data cells of every row of the
    table body. *)
Definition table_body (rows : list TableRow) : Try (list (list (option jsstring))) :=
  try_map (row_cells shown) rows.

End TableReaders.

(* ================================================================= *)
(** * The uploader ([components/ImageUploader.tsx]) *)

(** [result.split(',')[1]]: what the uploader takes for the base64 of a
    data URL; undefined when there is no comma. *)
Definition payload (result : jsstring) : option jsstring :=
  nth_error (split 44 result) 1.

(* ================================================================= *)
(** * Measures of a log, for the statements *)

(** The states a log sets, in order. *)
Fixpoint statuses (evs : list Event) : list ProcessingState :=
  match evs with
  | [] => []
  | StatusSet s :: rest => s :: statuses rest
  | _ :: rest => statuses rest
  end.

(** The time a log awaits, in milliseconds. *)
Definition total_wait (evs : list Event) : Z := fold_right Z.add 0%Z (waits evs).

(** The events the client may log. *)
Definition client_event (e : Event) : bool :=
  match e with
  | Requested _ | Settled _ | Waited _ | ConsoleWarn _ | ConsoleError _ _ => true
  | StatusSet _ | RowAppended _ | TimeoutSet _ _ => false
  end.

(** The delays of the retries, in order. *)
Definition backoffs : list Z := [4000; 8000; 16000; 32000; 64000]%Z.

(** No code unit of [s] is [sep]. *)
Definition free_of (sep : N) (s : jsstring) : bool :=
  forallb (fun c => negb (c =? sep)%N) s.

Section Provenance.

Variable Math_random_36 : nat -> jsstring.
Variable Date_toISOString : nat -> jsstring.

(** The rows made of the given names and records when [d] draws and [t]
    readings of the clock have been made: each takes the next draw for
    its id and the next reading for its timestamp. *)
Fixpoint rows_from (d t : nat) (records : list (jsstring * JSON)) : list TableRow :=
  match records with
  | [] => []
  | (name, v) :: rest =>
      mkTableRow (substr 2 9 (Math_random_36 d)) v name (Date_toISOString t)
      :: rows_from (S d) (S t) rest
  end.

End Provenance.

(* ================================================================= *)
(** * More environments for the examples *)

(** A remote that rejects the first [n] calls as rate limited and then
    answers with a text. *)
Definition limited_then_answering (n : nat) (text : jsstring)
  : nat -> Request -> RemoteOutcome :=
  fun k _ => if (k <? n)%nat then Failure limited_error else Response (Some text).

Definition network_error : JsError := Error (js "fetch failed").

(** A rendering of numbers for the examples: whole numbers in decimal. *)
Definition whole_number_text (d : Decimal) : jsstring :=
  (if negative d then js "-" else js "") ++ string_of_Z (Z.of_N (digits d)).

Definition row_of (v : JSON) : TableRow :=
  mkTableRow (js "4fzyo82mv") v (js "a.jpg") (js "2024-01-05T10:00:00.000Z").

(** A record with a tab and a line feed in one value, a zero in
    another. *)
Definition messy_record : JSON :=
  JObject [(js "日期", JString (js "2024" ++ tab ++ js "01" ++ nl ++ js "05"));
           (js "您已赚取", Reference.num 0);
           (js "推广", JString (jsq "a,'b'"))].


(* ================================================================= *)
(** * The definitions at work *)

Example js_ascii : js "a1`" = [97; 49; 96]%N.
Proof. reflexivity. Qed.

Example js_bmp : js "日期" = [26085; 26399]%N.
Proof. reflexivity. Qed.

Example of_nat_12 : string_of_nat 12 = js "12".
Proof. reflexivity. Qed.

Example of_Z_4000 : string_of_Z 4000 = js "4000".
Proof. reflexivity. Qed.

Example trim_example : trim (js "  x y
 ") = js "x y".
Proof. reflexivity. Qed.

Example stringify_two :
  JSON_stringify [js "日期"; jsq "a'b"] = jsq "['日期','a\'b']".
Proof. reflexivity. Qed.

Example parse_object :
  Reference.value_of (jsq "{'a':1}") = Some (JObject [(js "a", Reference.num 1)]).
Proof. vm_compute. reflexivity. Qed.

Example parse_array :
  Reference.value_of (jsq "[{'a':1},{'a':2}]")
  = Some (JArray [JObject [(js "a", Reference.num 1)]; JObject [(js "a", Reference.num 2)]]).
Proof. vm_compute. reflexivity. Qed.

Example parse_nested :
  Reference.value_of (jsq " { 'k' : [1, -2.50e1, true, null, 'x\n日'] , 'o': {} } ")
  = Some (JObject [(js "k", JArray [Reference.num 1;
                                     JNumber (mkDecimal true 250 (-1));
                                     JBool true; JNull;
                                     JString [120; 10; 26085]%N]);
                   (js "o", JObject [])]).
Proof. vm_compute. reflexivity. Qed.

Example parse_rejects :
  map Reference.value_of
      [js "Sorry, I cannot read this."; js ""; js "01"; js "[1,]"; js "{a:1}";
       js "1 2"; js "-"; js "1."; js "tru"; jsq "'a"; js "nulll"]
  = repeat None 11.
Proof. vm_compute. reflexivity. Qed.

Example v8_wording :
  Reference.v8_unexpected_token (js "HTTP 429")
  = js "Unexpected token 'H', " ++ jsq "'HTTP 429' is not valid JSON".
Proof. reflexivity. Qed.

Example tiny_number_is_falsy :
  map (fun t => option_map truthy (Reference.value_of (js t)))
      ["0"; "-0"; "0.0"; "1e-400"; "1e-323"; "5"; "0e5"]%string
  = [Some false; Some false; Some false; Some false; Some true; Some true; Some false].
Proof. vm_compute. reflexivity. Qed.

(* ================================================================= *)
(** * Strings: [trim], [startsWith] and the fence *)

Lemma startsWith_app (p s : jsstring) : startsWith p (p ++ s) = true.
Proof.
  induction p as [|x p IH]; simpl; [reflexivity|].
  now rewrite N.eqb_refl, IH.
Qed.

Lemma skipn_app_exact (p s : jsstring) : skipn (List.length p) (p ++ s) = s.
Proof. induction p; simpl; auto. Qed.

Lemma firstn_app_exact (s p : jsstring) :
  firstn (List.length (s ++ p) - List.length p) (s ++ p) = s.
Proof.
  rewrite length_app, Nat.add_sub.
  rewrite firstn_app, Nat.sub_diag, firstn_all. simpl. apply app_nil_r.
Qed.

Lemma trimStart_idem (s : jsstring) : trimStart (trimStart s) = trimStart s.
Proof.
  induction s as [|c s IH]; simpl; [reflexivity|].
  destruct (isWhiteSpace c) eqn:E; [exact IH|]. simpl. now rewrite E.
Qed.

(** Leading white space goes. *)
Lemma trimStart_space (sp s : jsstring) :
  forallb isWhiteSpace sp = true -> trimStart (sp ++ s) = trimStart s.
Proof.
  induction sp as [|c sp IH]; simpl; [reflexivity|].
  intros H. apply andb_true_iff in H. destruct H as [Hc Hsp].
  rewrite Hc. auto.
Qed.

(** A text that begins with something else than white space keeps its
    beginning. *)
Lemma trimStart_solid (c : N) (s : jsstring) :
  isWhiteSpace c = false -> trimStart (c :: s) = c :: s.
Proof. intros H. simpl. now rewrite H. Qed.

Lemma trimStart_app_solid (s t : jsstring) (c : N) :
  isWhiteSpace c = false ->
  trimStart (s ++ c :: t) = trimStart s ++ c :: t.
Proof.
  intros Hc. induction s as [|x s IH]; simpl.
  - now rewrite Hc.
  - destruct (isWhiteSpace x); auto.
Qed.

Lemma trimEnd_space (s sp : jsstring) :
  forallb isWhiteSpace sp = true -> trimEnd (s ++ sp) = trimEnd s.
Proof.
  intros H. unfold trimEnd. rewrite rev_app_distr.
  rewrite trimStart_space; [reflexivity|].
  rewrite forallb_forall in *. intros x Hx. apply H. now apply in_rev.
Qed.

Lemma trimEnd_solid (s : jsstring) (c : N) :
  isWhiteSpace c = false -> trimEnd (s ++ [c]) = s ++ [c].
Proof.
  intros H. unfold trimEnd. rewrite rev_app_distr. simpl.
  rewrite H. simpl. now rewrite rev_involutive.
Qed.

(** [trimEnd] leaves the beginning alone when something solid is there. *)
Lemma trimEnd_cons_solid (c : N) (s : jsstring) :
  isWhiteSpace c = false -> exists s', trimEnd (c :: s) = c :: s'.
Proof.
  intros Hc. unfold trimEnd. simpl rev.
  rewrite trimStart_app_solid by exact Hc.
  rewrite rev_app_distr. simpl. eauto.
Qed.

(** Trimming a trimmed text changes nothing. *)
Lemma trim_idem (s : jsstring) : trim (trim s) = trim s.
Proof.
  unfold trim.
  remember (trimStart s) as t eqn:Et.
  assert (Ht : trimStart t = t) by (subst; apply trimStart_idem).
  clear Et s. destruct t as [|c t]; [reflexivity|].
  assert (Hc : isWhiteSpace c = false).
  { simpl in Ht. destruct (isWhiteSpace c) eqn:E; [|reflexivity].
    exfalso. assert (L : (List.length (trimStart t) <= List.length t)%nat).
    { clear. induction t as [|x t IH]; simpl; [lia|].
      destruct (isWhiteSpace x); simpl; lia. }
    rewrite Ht in L. simpl in L. lia. }
  destruct (trimEnd_cons_solid c t Hc) as [s' Hs']. rewrite Hs'.
  rewrite trimStart_solid by exact Hc. rewrite <- Hs'.
  unfold trimEnd. rewrite rev_involutive, trimStart_idem. reflexivity.
Qed.

(** The back tick is not white space. *)
Lemma backtick_solid : isWhiteSpace 96 = false.
Proof. reflexivity. Qed.

(** A text between back ticks is its own trimming, white space around
    it aside. *)
Lemma trim_between_backticks (pre mid post : jsstring) :
  forallb isWhiteSpace pre = true ->
  forallb isWhiteSpace post = true ->
  trim (pre ++ (96%N :: mid ++ [96%N]) ++ post) = 96%N :: mid ++ [96%N].
Proof.
  intros Hpre Hpost. unfold trim.
  rewrite trimStart_space by exact Hpre.
  change ((96%N :: mid ++ [96%N]) ++ post) with (96%N :: (mid ++ [96%N]) ++ post).
  rewrite trimStart_solid by exact backtick_solid.
  change (96%N :: (mid ++ [96%N]) ++ post) with ((96%N :: mid ++ [96%N]) ++ post).
  rewrite trimEnd_space by exact Hpost.
  change (96%N :: mid ++ [96%N]) with ((96%N :: mid) ++ [96%N]).
  apply trimEnd_solid, backtick_solid.
Qed.

Lemma starts_with_brace (t : jsstring) :
  startsWith (js "{") t = true -> exists r, t = 123%N :: r.
Proof.
  destruct t as [|c r]; [discriminate|].
  change (startsWith (js "{") (c :: r)) with ((123 =? c)%N && true).
  rewrite andb_true_r. intros H. apply N.eqb_eq in H. subst. eauto.
Qed.

(** A text whose trimming opens with a brace begins with white space or
    with that brace. *)
Lemma brace_text_head (body : jsstring) :
  startsWith (js "{") (trim body) = true ->
  exists c r, body = c :: r /\ (isWhiteSpace c = true \/ c = 123%N).
Proof.
  intros H. apply starts_with_brace in H. destruct H as [r Hr].
  destruct body as [|c b]; [discriminate|].
  exists c, b. split; [reflexivity|].
  destruct (isWhiteSpace c) eqn:E; [now left|right].
  unfold trim in Hr. rewrite trimStart_solid in Hr by exact E.
  destruct (trimEnd_cons_solid c b E) as [s' Hs']. congruence.
Qed.

Lemma clean_plain (body : jsstring) :
  startsWith (js "{") (trim body) = true -> clean body = trim body.
Proof.
  intros H. unfold clean. apply starts_with_brace in H. destruct H as [r Hr].
  rewrite Hr. reflexivity.
Qed.

Lemma strip_closing_fence_app (s : jsstring) : strip_closing_fence (s ++ fence) = s.
Proof.
  unfold strip_closing_fence, endsWith.
  rewrite rev_app_distr, startsWith_app.
  apply (firstn_app_exact s fence).
Qed.

Lemma strip_opening_fence_app (opening body : jsstring) :
  stripped_opening opening ->
  startsWith (js "{") (trim body) = true ->
  strip_opening_fence (opening ++ body ++ fence) = body ++ fence.
Proof.
  intros Ho Hb. destruct (brace_text_head body Hb) as (c & r & -> & Hc).
  destruct Ho as [-> | ->].
  - unfold strip_opening_fence. rewrite startsWith_app.
    rewrite (skipn_app_exact fence).
    assert (Hj : startsWith (js "json") ((c :: r) ++ fence) = false).
    { change (startsWith (js "json") ((c :: r) ++ fence))
        with ((106 =? c)%N && startsWith [115; 111; 110]%N (r ++ fence)).
      replace (106 =? c)%N with false; [reflexivity|].
      symmetry. apply N.eqb_neq. intros <-. destruct Hc as [Hc|Hc]; discriminate. }
    cbv zeta. rewrite Hj. reflexivity.
  - unfold strip_opening_fence. rewrite <- app_assoc, startsWith_app.
    rewrite (skipn_app_exact fence), startsWith_app.
    apply (skipn_app_exact (js "json")).
Qed.

(** The fenced text and the text inside the fence are cleaned to the
    same thing. *)
Lemma clean_fenced (pre opening body post : jsstring) :
  stripped_opening opening ->
  startsWith (js "{") (trim body) = true ->
  forallb isWhiteSpace pre = true ->
  forallb isWhiteSpace post = true ->
  clean (pre ++ (opening ++ body ++ fence) ++ post) = clean body.
Proof.
  intros Ho Hb Hpre Hpost. rewrite (clean_plain body Hb).
  assert (Hshape : exists mid, opening ++ body ++ fence = 96%N :: mid ++ [96%N]
                               /\ exists mid', mid = 96%N :: 96%N :: mid').
  { destruct Ho as [-> | ->].
    - exists ([96; 96]%N ++ body ++ [96; 96]%N). split.
      + unfold fence. simpl. rewrite <- !app_assoc. reflexivity.
      + eexists. reflexivity.
    - exists ([96; 96]%N ++ js "json" ++ body ++ [96; 96]%N). split.
      + unfold fence. simpl. rewrite <- !app_assoc. reflexivity.
      + eexists. reflexivity. }
  destruct Hshape as (mid & Hmid & mid' & Hmid').
  unfold clean. rewrite Hmid, trim_between_backticks by assumption.
  assert (Hs : startsWith fence (96%N :: mid ++ [96%N]) = true)
    by (rewrite Hmid'; reflexivity).
  rewrite Hs, <- Hmid.
  rewrite (strip_opening_fence_app opening body Ho Hb).
  rewrite strip_closing_fence_app. reflexivity.
Qed.

(* ================================================================= *)
(** * The loop of the client *)

Lemma same_store_refl (w : World) : same_store w w.
Proof. repeat split. Qed.

Lemma same_store_trans (w1 w2 w3 : World) :
  same_store w1 w2 -> same_store w2 w3 -> same_store w1 w3.
Proof. unfold same_store. intuition congruence. Qed.

Section ClientFacts.

Variable generateContent : nat -> Request -> RemoteOutcome.
Variable JSON_parse : jsstring -> ParseResult.

(** The loop ends, whatever the remote does, once it has fuel for the
    retries that are left; and it runs as [ClientRun] says. *)
Lemma retry_loop_run (fuel : nat) (req : Request) :
  forall (attempt : nat) (w : World),
    (maxRetries - attempt < fuel)%nat ->
    exists c w' evs,
      retry_loop generateContent JSON_parse fuel req attempt w = Some (c, w')
      /\ ClientRun generateContent JSON_parse req (calls w) attempt c evs (calls w')
      /\ log w' = log w ++ evs
      /\ same_store w w'.
Proof.
  induction fuel as [|fuel IH]; intros attempt w Hfuel; [lia|].
  cbn [retry_loop]. unfold bind at 1. unfold call_remote.
  set (o := generateContent (calls w) req).
  set (w1 := mkWorld (S (calls w)) (draws w) (clock w) (rows w)
                     (processingState w) (log w ++ [Requested req; Settled o])).
  destruct (try_block JSON_parse o) as [v|error] eqn:Etry.
  - exists (Returned v), w1, [Requested req; Settled o]. repeat split.
    apply run_return. exact Etry.
  - destruct (isRateLimit error && (attempt <? maxRetries)%nat) eqn:Eretry.
    + apply andb_true_iff in Eretry. destruct Eretry as [Hrate Hlt].
      apply Nat.ltb_lt in Hlt.
      unfold bind, console_warn, wait, emit. cbn [calls draws clock rows processingState log w1].
      match goal with
      | |- context [retry_loop _ _ fuel req (attempt + 1) ?w] => set (w2 := w)
      end.
      destruct (IH (attempt + 1)%nat w2) as (c & w' & evs & Hrun & Htrace & Hlog & Hstore).
      { lia. }
      exists c, w', (retry_round req o (attempt + 1) ++ evs).
      split; [exact Hrun|]. split; [|split].
      * apply run_retry with (error := error); auto.
      * rewrite Hlog. unfold w2, retry_round. cbn [log].
        rewrite <- !app_assoc. reflexivity.
      * exact Hstore.
    + unfold bind, console_error, emit, ret.
      cbn [calls draws clock rows processingState log w1].
      eexists _, _, (throw_round req o error).
      split; [reflexivity|]. split; [|split].
      * apply run_throw; assumption.
      * cbn [log]. unfold throw_round. rewrite <- app_assoc. reflexivity.
      * repeat split.
Qed.

(** Fuel beyond what the retries need changes nothing. *)
Lemma retry_loop_fuel (fuel fuel' : nat) (req : Request) :
  forall (attempt : nat) (w : World),
    (maxRetries - attempt < fuel)%nat ->
    (maxRetries - attempt < fuel')%nat ->
    retry_loop generateContent JSON_parse fuel req attempt w
    = retry_loop generateContent JSON_parse fuel' req attempt w.
Proof.
  revert fuel'. induction fuel as [|fuel IH]; intros fuel' attempt w H H'; [lia|].
  destruct fuel' as [|fuel']; [lia|].
  cbn [retry_loop]. unfold bind, call_remote, console_warn, wait, emit.
  destruct (try_block JSON_parse (generateContent (calls w) req)) as [v|error];
    [reflexivity|].
  destruct (isRateLimit error && (attempt <? maxRetries)%nat) eqn:E; [|reflexivity].
  apply andb_true_iff in E. destruct E as [_ Hlt]. apply Nat.ltb_lt in Hlt.
  apply IH; lia.
Qed.

(** [extractDataFromImage] always ends, as [ClientRun] says. *)
Lemma extractDataFromImage_run (base64Image : jsstring)
    (existingHeaders : list jsstring) (w : World) :
  exists c w' evs,
    extractDataFromImage generateContent JSON_parse base64Image existingHeaders w
    = Some (c, w')
    /\ ClientRun generateContent JSON_parse (mkRequest model (js "image/jpeg") base64Image
                            (build_prompt existingHeaders))
                 (calls w) 0 c evs (calls w')
    /\ log w' = log w ++ evs
    /\ same_store w w'.
Proof. apply retry_loop_run. unfold maxRetries. lia. Qed.

Lemma round_returns (fuel : nat) (req : Request) (attempt : nat) (w : World) (v : JSON) :
  try_block JSON_parse (generateContent (calls w) req) = Returned v ->
  retry_loop generateContent JSON_parse (S fuel) req attempt w
  = Some (Returned v,
          after_round w [Requested req; Settled (generateContent (calls w) req)]).
Proof.
  intros H. cbn [retry_loop]. unfold bind, call_remote. rewrite H. reflexivity.
Qed.

Lemma round_retries (fuel : nat) (req : Request) (attempt : nat) (w : World)
    (error : JsError) :
  try_block JSON_parse (generateContent (calls w) req) = Thrown error ->
  isRateLimit error = true ->
  (attempt < maxRetries)%nat ->
  retry_loop generateContent JSON_parse (S fuel) req attempt w
  = retry_loop generateContent JSON_parse fuel req (attempt + 1)
      (after_round w (retry_round req (generateContent (calls w) req) (attempt + 1))).
Proof.
  intros H Hrate Hlt. cbn [retry_loop].
  unfold bind, call_remote, console_warn, wait, emit. rewrite H, Hrate.
  apply Nat.ltb_lt in Hlt. rewrite Hlt. cbn [andb calls draws clock rows processingState log].
  unfold after_round, retry_round. rewrite <- !app_assoc. reflexivity.
Qed.

Lemma round_throws (fuel : nat) (req : Request) (attempt : nat) (w : World)
    (error : JsError) :
  try_block JSON_parse (generateContent (calls w) req) = Thrown error ->
  isRateLimit error && (attempt <? maxRetries)%nat = false ->
  retry_loop generateContent JSON_parse (S fuel) req attempt w
  = Some (Thrown (rethrow error),
          after_round w (throw_round req (generateContent (calls w) req) error)).
Proof.
  intros H Hno. cbn [retry_loop].
  unfold bind, call_remote, console_error, emit, ret. rewrite H, Hno.
  cbn [calls draws clock rows processingState log].
  unfold after_round, throw_round. rewrite <- !app_assoc. reflexivity.
Qed.

(** A response with a text that parses, as the [try] block sees it. *)
Lemma try_block_parsed (text : jsstring) (data : JSON) :
  text <> [] ->
  JSON_parse (clean text) = Parsed data ->
  try_block JSON_parse (Response (Some text))
  = match data with
    | JArray (first :: _) => Returned (if truthy first then first else JObject [])
    | JArray [] => Returned (JObject [])
    | _ => Returned data
    end.
Proof.
  intros Hne Hp. destruct text as [|c t]; [contradiction|].
  cbn [try_block]. rewrite Hp. destruct data; reflexivity.
Qed.

Lemma try_block_rejected (text msg : jsstring) :
  text <> [] ->
  JSON_parse (clean text) = Rejected msg ->
  try_block JSON_parse (Response (Some text)) = Thrown (SyntaxError msg).
Proof.
  intros Hne Hp. destruct text as [|c t]; [contradiction|].
  cbn [try_block]. rewrite Hp. reflexivity.
Qed.

(** The fenced text and the text inside the fence fare alike in the
    [try] block. *)
Lemma try_block_fenced (pre opening body post : jsstring) :
  stripped_opening opening ->
  startsWith (js "{") (trim body) = true ->
  forallb isWhiteSpace pre = true ->
  forallb isWhiteSpace post = true ->
  try_block JSON_parse (Response (Some (pre ++ (opening ++ body ++ fence) ++ post)))
  = try_block JSON_parse (Response (Some body)).
Proof.
  intros Ho Hb Hpre Hpost.
  pose proof (clean_fenced pre opening body post Ho Hb Hpre Hpost) as Hclean.
  destruct (brace_text_head body Hb) as (c & r & Hbody & _).
  assert (Hne : pre ++ (opening ++ body ++ fence) ++ post <> []).
  { intros E. apply app_eq_nil in E. destruct E as [_ E].
    apply app_eq_nil in E. destruct E as [E _].
    apply app_eq_nil in E. destruct E as [_ E].
    apply app_eq_nil in E. destruct E as [E _]. congruence. }
  destruct (pre ++ (opening ++ body ++ fence) ++ post) as [|x t] eqn:Ew;
    [contradiction|].
  rewrite Hbody in *. cbn [try_block]. rewrite Hclean. reflexivity.
Qed.

End ClientFacts.

(* ================================================================= *)
(** * The Extraction Client: retries *)

(** C1.  When every call of an invocation is rejected as rate limited
    (status 429, code 429 or a message holding "429"), the client makes
    six calls: before the retries 1 to 5 it awaits exactly 4000, 8000,
    16000, 32000 and 64000 ms, and after the sixth rejection it logs the
    error and throws, with no further call and no further delay.  What
    it throws is the sixth error itself (unless that error is a
    [SyntaxError], which the catch block rewords). *)
Theorem rate_limited_backoff_then_failure
    (generateContent : nat -> Request -> RemoteOutcome)
    (JSON_parse : jsstring -> ParseResult)
    (base64Image : jsstring) (existingHeaders : list jsstring)
    (w : World) (failure : nat -> JsError) :
  (forall k, (k < 6)%nat ->
     generateContent (calls w + k)%nat (request_for base64Image existingHeaders)
     = Failure (failure k)
     /\ isRateLimit (failure k) = true) ->
  exists w' evs,
    extractDataFromImage generateContent JSON_parse base64Image existingHeaders w
    = Some (Thrown (rethrow (failure 5%nat)), w')
    /\ (isSyntaxError (failure 5%nat) = false -> rethrow (failure 5%nat) = failure 5%nat)
    /\ log w' = log w ++ evs
    /\ evs = retry_round (request_for base64Image existingHeaders) (Failure (failure 0%nat)) 1
             ++ retry_round (request_for base64Image existingHeaders) (Failure (failure 1%nat)) 2
             ++ retry_round (request_for base64Image existingHeaders) (Failure (failure 2%nat)) 3
             ++ retry_round (request_for base64Image existingHeaders) (Failure (failure 3%nat)) 4
             ++ retry_round (request_for base64Image existingHeaders) (Failure (failure 4%nat)) 5
             ++ throw_round (request_for base64Image existingHeaders)
                            (Failure (failure 5%nat)) (failure 5%nat)
    /\ waits evs = [4000; 8000; 16000; 32000; 64000]%Z
    /\ List.length (requests evs) = 6%nat
    /\ calls w' = (calls w + 6)%nat.
Proof.
  intros H. set (req := request_for base64Image existingHeaders) in *.
  destruct (H 0%nat ltac:(lia)) as [G0 R0]. destruct (H 1%nat ltac:(lia)) as [G1 R1].
  destruct (H 2%nat ltac:(lia)) as [G2 R2]. destruct (H 3%nat ltac:(lia)) as [G3 R3].
  destruct (H 4%nat ltac:(lia)) as [G4 R4]. destruct (H 5%nat ltac:(lia)) as [G5 R5].
  rewrite Nat.add_comm in G0, G1, G2, G3, G4, G5. cbn [Nat.add] in *.
  unfold extractDataFromImage. change (mkRequest _ _ _ _) with req.
  unfold maxRetries at 1.
  rewrite (round_retries generateContent JSON_parse 5 req 0 w (failure 0%nat));
    [|rewrite G0; reflexivity|exact R0|unfold maxRetries; lia].
  rewrite G0.
  rewrite (round_retries generateContent JSON_parse 4 req 1 _ (failure 1%nat));
    [|cbn [calls after_round]; rewrite G1; reflexivity|exact R1|unfold maxRetries; lia].
  cbn [calls after_round]. rewrite G1.
  rewrite (round_retries generateContent JSON_parse 3 req 2 _ (failure 2%nat));
    [|cbn [calls after_round]; rewrite G2; reflexivity|exact R2|unfold maxRetries; lia].
  cbn [calls after_round]. rewrite G2.
  rewrite (round_retries generateContent JSON_parse 2 req 3 _ (failure 3%nat));
    [|cbn [calls after_round]; rewrite G3; reflexivity|exact R3|unfold maxRetries; lia].
  cbn [calls after_round]. rewrite G3.
  rewrite (round_retries generateContent JSON_parse 1 req 4 _ (failure 4%nat));
    [|cbn [calls after_round]; rewrite G4; reflexivity|exact R4|unfold maxRetries; lia].
  cbn [calls after_round]. rewrite G4.
  rewrite (round_throws generateContent JSON_parse 0 req 5 _ (failure 5%nat));
    [|cbn [calls after_round]; rewrite G5; reflexivity|rewrite R5; reflexivity].
  cbn [calls after_round draws clock rows processingState log]. rewrite G5.
  eexists _, _. split; [reflexivity|]. split.
  { intros E. unfold rethrow. rewrite E. reflexivity. }
  split.
  { cbn [log after_round]. rewrite <- !app_assoc. reflexivity. }
  split; [reflexivity|]. split; [reflexivity|]. split; [reflexivity|].
  cbn [calls after_round]. lia.
Qed.

Lemma rate_limited_backoff_witness :
  (forall k, (k < 6)%nat ->
     always_limited (calls initial + k)%nat (request_for sample_image headers)
     = Failure limited_error
     /\ isRateLimit limited_error = true)
  /\ exists w' evs,
       extractDataFromImage always_limited reference_parse sample_image headers initial
       = Some (Thrown limited_error, w')
       /\ log w' = evs
       /\ waits evs = [4000; 8000; 16000; 32000; 64000]%Z
       /\ List.length (requests evs) = 6%nat.
Proof.
  assert (H : forall k, (k < 6)%nat ->
     always_limited (calls initial + k)%nat (request_for sample_image headers)
     = Failure limited_error
     /\ isRateLimit limited_error = true).
  { intros k _. split; reflexivity. }
  split; [exact H|].
  destruct (rate_limited_backoff_then_failure always_limited reference_parse
              sample_image headers initial (fun _ => limited_error) H)
    as (w' & evs & Hrun & _ & Hlog & _ & Hwaits & Hreq & _).
  exists w', evs. repeat split; assumption.
Defined.

(* ================================================================= *)
(** * The Extraction Client: what it makes of a response *)

(** X15.  A response that is a JSON object inside a fence whose opening
    marker is bare or carries the tag [json], white space around the
    fence or inside it aside, gives the record the text inside the fence
    gives on its own. *)
Theorem fenced_object_same_record
    (fenced_remote plain_remote : nat -> Request -> RemoteOutcome)
    (JSON_parse : jsstring -> ParseResult)
    (base64Image : jsstring) (existingHeaders : list jsstring) (w : World)
    (pre opening body post : jsstring) (members : list (jsstring * JSON)) :
  stripped_opening opening ->
  forallb isWhiteSpace pre = true ->
  forallb isWhiteSpace post = true ->
  startsWith (js "{") (trim body) = true ->
  JSON_parse (trim body) = Parsed (JObject members) ->
  fenced_remote (calls w) (request_for base64Image existingHeaders)
  = Response (Some (pre ++ (opening ++ body ++ fence) ++ post)) ->
  plain_remote (calls w) (request_for base64Image existingHeaders)
  = Response (Some body) ->
  exists w1 w2,
    extractDataFromImage fenced_remote JSON_parse base64Image existingHeaders w
    = Some (Returned (JObject members), w1)
    /\ extractDataFromImage plain_remote JSON_parse base64Image existingHeaders w
       = Some (Returned (JObject members), w2).
Proof.
  intros Ho Hpre Hpost Hb Hparse Hf Hp.
  assert (Hne : body <> []).
  { destruct (brace_text_head body Hb) as (c & r & -> & _). discriminate. }
  assert (Hplain : try_block JSON_parse (Response (Some body)) = Returned (JObject members)).
  { rewrite (try_block_parsed JSON_parse body (JObject members) Hne); [reflexivity|].
    rewrite (clean_plain body Hb). exact Hparse. }
  unfold extractDataFromImage.
  change (mkRequest _ _ _ _) with (request_for base64Image existingHeaders).
  eexists _, _. split.
  - apply round_returns. rewrite Hf.
    rewrite (try_block_fenced JSON_parse pre opening body post Ho Hb Hpre Hpost).
    exact Hplain.
  - apply round_returns. rewrite Hp. exact Hplain.
Qed.

Lemma fenced_object_witness :
  stripped_opening (fence ++ js "json")
  /\ forallb isWhiteSpace [] = true
  /\ forallb isWhiteSpace nl = true
  /\ startsWith (js "{") (trim fenced_body) = true
  /\ reference_parse (trim fenced_body) = Parsed object_value
  /\ answering fenced_json_text (calls initial) (request_for sample_image headers)
     = Response (Some fenced_json_text)
  /\ answering fenced_body (calls initial) (request_for sample_image headers)
     = Response (Some fenced_body)
  /\ exists w1 w2,
      extractDataFromImage (answering fenced_json_text) reference_parse
                           sample_image headers initial
      = Some (Returned object_value, w1)
      /\ extractDataFromImage (answering fenced_body) reference_parse
                              sample_image headers initial
         = Some (Returned object_value, w2).
Proof.
  assert (H1 : stripped_opening (fence ++ js "json")) by (right; reflexivity).
  assert (H2 : forallb isWhiteSpace [] = true) by reflexivity.
  assert (H3 : forallb isWhiteSpace nl = true) by reflexivity.
  assert (H4 : startsWith (js "{") (trim fenced_body) = true) by (vm_compute; reflexivity).
  assert (H5 : reference_parse (trim fenced_body) = Parsed object_value)
    by (vm_compute; reflexivity).
  assert (H6 : answering fenced_json_text (calls initial)
                         (request_for sample_image headers)
               = Response (Some fenced_json_text)) by reflexivity.
  assert (H7 : answering fenced_body (calls initial) (request_for sample_image headers)
               = Response (Some fenced_body)) by reflexivity.
  repeat (split; [assumption|]).
  exact (fenced_object_same_record
           (answering fenced_json_text) (answering fenced_body) reference_parse
           sample_image headers initial [] (fence ++ js "json") fenced_body nl
           [(js "a", Reference.num 1)] H1 H2 H3 H4 H5 H6 H7).
Defined.

(** C2.  The code falls short of the claim on a fence with another
    language tag: of a fence tagged [javascript] only the markers are
    stripped, the tag stays in front of the text handed to [JSON.parse],
    and the object inside the fence is lost to a parse failure, while
    the same object on its own is returned. *)
Lemma other_language_tag_breaks_parsing :
  clean fenced_javascript_text = js "javascript" ++ nl ++ object_text
  /\ option_map fst (extractDataFromImage (answering fenced_javascript_text)
                       reference_parse sample_image headers initial)
     = Some (Thrown parse_failure)
  /\ option_map fst (extractDataFromImage (answering object_text)
                       reference_parse sample_image headers initial)
     = Some (Returned object_value).
Proof. vm_compute. repeat split; reflexivity. Qed.

(** The same in general: of a fence whose tag does not begin with
    [json] the markers go and the tag stays, so that the text handed to
    [JSON.parse] begins with the tag and not with the object. *)
Lemma other_tag_stays_in_text (c : N) (tag body : jsstring) :
  isWhiteSpace c = false ->
  startsWith (js "json") ((c :: tag) ++ body ++ fence) = false ->
  clean (fence ++ (c :: tag) ++ body ++ fence) = trim ((c :: tag) ++ body)
  /\ exists rest, clean (fence ++ (c :: tag) ++ body ++ fence) = c :: rest.
Proof.
  intros Hc Hj.
  assert (Hclean : clean (fence ++ (c :: tag) ++ body ++ fence)
                   = trim ((c :: tag) ++ body)).
  { assert (Hshape : fence ++ (c :: tag) ++ body ++ fence
                     = 96%N :: ([96; 96]%N ++ (c :: tag) ++ body ++ [96; 96]%N) ++ [96%N]).
    { unfold fence. simpl. rewrite <- !app_assoc. reflexivity. }
    pose proof (trim_between_backticks
                  [] ([96; 96]%N ++ (c :: tag) ++ body ++ [96; 96]%N) []
                  eq_refl eq_refl) as Ht.
    rewrite app_nil_r in Ht. change ([] ++ ?x) with x in Ht.
    unfold clean. rewrite Hshape, Ht.
    replace (startsWith fence
               (96%N :: ([96; 96]%N ++ (c :: tag) ++ body ++ [96; 96]%N) ++ [96%N]))
      with true by reflexivity.
    rewrite <- Hshape. unfold strip_opening_fence.
    rewrite startsWith_app, (skipn_app_exact fence). cbv zeta. rewrite Hj.
    rewrite app_assoc, strip_closing_fence_app. reflexivity. }
  split; [exact Hclean|]. rewrite Hclean. unfold trim. cbn [app].
  rewrite trimStart_solid by exact Hc.
  destruct (trimEnd_cons_solid c (tag ++ body) Hc) as [s' Hs'].
  exists s'. exact Hs'.
Qed.

(** The tag is matched by case: [JSON] in capitals stays as well. *)
Example capital_tag_breaks_parsing :
  clean (js "```JSON" ++ nl ++ object_text ++ nl ++ js "```")
  = js "JSON" ++ nl ++ object_text
  /\ option_map fst
       (extractDataFromImage
          (answering (js "```JSON" ++ nl ++ object_text ++ nl ++ js "```"))
          reference_parse sample_image headers initial)
     = Some (Thrown parse_failure).
Proof. vm_compute. split; reflexivity. Qed.

(** C5, as amended.  When the text parses as a list, the client returns
    the first element if that element is truthy, and an empty record
    otherwise: when the list is empty, and also when its first element
    is null, false, zero or the empty string. *)
Theorem list_response_first_element_or_empty
    (generateContent : nat -> Request -> RemoteOutcome)
    (JSON_parse : jsstring -> ParseResult)
    (base64Image : jsstring) (existingHeaders : list jsstring) (w : World)
    (text : jsstring) (elements : list JSON) :
  generateContent (calls w) (request_for base64Image existingHeaders)
  = Response (Some text) ->
  text <> [] ->
  JSON_parse (clean text) = Parsed (JArray elements) ->
  exists w',
    extractDataFromImage generateContent JSON_parse base64Image existingHeaders w
    = Some (Returned match elements with
                     | first :: _ => if truthy first then first else JObject []
                     | [] => JObject []
                     end, w').
Proof.
  intros Hg Hne Hp. unfold extractDataFromImage.
  change (mkRequest _ _ _ _) with (request_for base64Image existingHeaders).
  eexists. apply round_returns. rewrite Hg.
  rewrite (try_block_parsed JSON_parse text (JArray elements) Hne Hp).
  destruct elements; reflexivity.
Qed.

Lemma list_response_witness :
  answering list_text (calls initial) (request_for sample_image headers)
  = Response (Some list_text)
  /\ list_text <> []
  /\ reference_parse (clean list_text)
     = Parsed (JArray [object_value; JObject [(js "a", Reference.num 2)]])
  /\ exists w',
      extractDataFromImage (answering list_text) reference_parse sample_image headers initial
      = Some (Returned object_value, w').
Proof.
  assert (H1 : answering list_text (calls initial) (request_for sample_image headers)
               = Response (Some list_text)) by reflexivity.
  assert (H2 : list_text <> []) by discriminate.
  assert (H3 : reference_parse (clean list_text)
               = Parsed (JArray [object_value; JObject [(js "a", Reference.num 2)]]))
    by (vm_compute; reflexivity).
  repeat (split; [assumption|]).
  exact (list_response_first_element_or_empty (answering list_text) reference_parse
           sample_image headers initial list_text
           [object_value; JObject [(js "a", Reference.num 2)]] H1 H2 H3).
Defined.

(** The two lists of the specification: the first element only, and an
    empty record for the empty list. *)
Example list_of_two_objects :
  option_map fst (extractDataFromImage (answering (jsq "[{'a':1},{'a':2}]"))
                    reference_parse sample_image headers initial)
  = Some (Returned (JObject [(js "a", Reference.num 1)])).
Proof. vm_compute. reflexivity. Qed.

Example empty_list :
  option_map fst (extractDataFromImage (answering (js "[]"))
                    reference_parse sample_image headers initial)
  = Some (Returned (JObject [])).
Proof. vm_compute. reflexivity. Qed.

(** C5 as stated fails: the list [[null,{"a":1}]] is not empty, yet the
    client returns an empty record, which is not its first element. *)
Lemma falsy_first_element_is_replaced :
  reference_parse (clean null_first_text) = Parsed (JArray [JNull; object_value])
  /\ option_map fst (extractDataFromImage (answering null_first_text) reference_parse
                                          sample_image headers initial)
     = Some (Returned (JObject []))
  /\ JObject [] <> JNull.
Proof. vm_compute. repeat split; try reflexivity. discriminate. Qed.

(** A list whose first element is an empty record also gives an empty
    record, so an empty record does not tell that the list was empty. *)
Example empty_record_first :
  option_map fst (extractDataFromImage (answering (js "[{}]"))
                    reference_parse sample_image headers initial)
  = Some (Returned (JObject [])).
Proof. vm_compute. reflexivity. Qed.

(** C10.  When the text parses as a value that is not a list, the
    client returns that value as it is, in one call, with no error:
    also when the value is a number, a string, a boolean or null and so
    no record at all. *)
Theorem non_list_value_returned_as_is
    (generateContent : nat -> Request -> RemoteOutcome)
    (JSON_parse : jsstring -> ParseResult)
    (base64Image : jsstring) (existingHeaders : list jsstring) (w : World)
    (text : jsstring) (v : JSON) :
  generateContent (calls w) (request_for base64Image existingHeaders)
  = Response (Some text) ->
  text <> [] ->
  JSON_parse (clean text) = Parsed v ->
  isArray v = false ->
  exists w',
    extractDataFromImage generateContent JSON_parse base64Image existingHeaders w
    = Some (Returned v, w')
    /\ log w' = log w ++ [Requested (request_for base64Image existingHeaders);
                          Settled (Response (Some text))].
Proof.
  intros Hg Hne Hp Hv. unfold extractDataFromImage.
  change (mkRequest _ _ _ _) with (request_for base64Image existingHeaders).
  eexists. split.
  - apply round_returns. rewrite Hg.
    rewrite (try_block_parsed JSON_parse text v Hne Hp).
    destruct v; try reflexivity. discriminate.
  - cbn [log after_round]. rewrite Hg. reflexivity.
Qed.

Lemma non_list_value_witness :
  answering (js "42") (calls initial) (request_for sample_image headers)
  = Response (Some (js "42"))
  /\ js "42" <> []
  /\ reference_parse (clean (js "42")) = Parsed (Reference.num 42)
  /\ isArray (Reference.num 42) = false
  /\ exists w',
      extractDataFromImage (answering (js "42")) reference_parse sample_image headers initial
      = Some (Returned (Reference.num 42), w')
      /\ log w' = log initial ++ [Requested (request_for sample_image headers);
                                  Settled (Response (Some (js "42")))].
Proof.
  assert (H1 : answering (js "42") (calls initial) (request_for sample_image headers)
               = Response (Some (js "42"))) by reflexivity.
  assert (H2 : js "42" <> []) by discriminate.
  assert (H3 : reference_parse (clean (js "42")) = Parsed (Reference.num 42))
    by (vm_compute; reflexivity).
  assert (H4 : isArray (Reference.num 42) = false) by reflexivity.
  repeat (split; [assumption|]).
  exact (non_list_value_returned_as_is (answering (js "42")) reference_parse
           sample_image headers initial (js "42") (Reference.num 42) H1 H2 H3 H4).
Defined.

Example quoted_string_returned :
  option_map fst (extractDataFromImage (answering (jsq "'hello'"))
                    reference_parse sample_image headers initial)
  = Some (Returned (JString (js "hello"))).
Proof. vm_compute. reflexivity. Qed.

Example null_returned :
  option_map fst (extractDataFromImage (answering (js "null"))
                    reference_parse sample_image headers initial)
  = Some (Returned JNull).
Proof. vm_compute. reflexivity. Qed.

(* ================================================================= *)
(** * The Extraction Client: malformed responses *)

(** A response without text ends the invocation at once, with the
    client's own error. *)
Lemma no_text_fails_at_once
    (generateContent : nat -> Request -> RemoteOutcome)
    (JSON_parse : jsstring -> ParseResult)
    (base64Image : jsstring) (existingHeaders : list jsstring) (w : World)
    (text : option jsstring) :
  generateContent (calls w) (request_for base64Image existingHeaders) = Response text ->
  text = None \/ text = Some [] ->
  exists w',
    extractDataFromImage generateContent JSON_parse base64Image existingHeaders w
    = Some (Thrown no_data, w')
    /\ log w' = log w ++ throw_round (request_for base64Image existingHeaders)
                                     (Response text) no_data.
Proof.
  intros Hg Ht. unfold extractDataFromImage.
  change (mkRequest _ _ _ _) with (request_for base64Image existingHeaders).
  eexists. split.
  - apply (round_throws generateContent JSON_parse 5 _ 0 w no_data).
    + rewrite Hg. destruct Ht as [-> | ->]; reflexivity.
    + reflexivity.
  - cbn [log after_round]. rewrite Hg. reflexivity.
Qed.

(** A text the engine rejects ends the invocation at once, with the
    client's own error in place of the [SyntaxError], provided the
    engine's message does not hold "429". *)
Lemma unparsable_text_fails_at_once
    (generateContent : nat -> Request -> RemoteOutcome)
    (JSON_parse : jsstring -> ParseResult)
    (base64Image : jsstring) (existingHeaders : list jsstring) (w : World)
    (text msg : jsstring) :
  generateContent (calls w) (request_for base64Image existingHeaders)
  = Response (Some text) ->
  text <> [] ->
  JSON_parse (clean text) = Rejected msg ->
  includes (js "429") msg = false ->
  exists w',
    extractDataFromImage generateContent JSON_parse base64Image existingHeaders w
    = Some (Thrown parse_failure, w')
    /\ log w' = log w ++ throw_round (request_for base64Image existingHeaders)
                                     (Response (Some text)) (SyntaxError msg).
Proof.
  intros Hg Hne Hp Hmsg. unfold extractDataFromImage.
  change (mkRequest _ _ _ _) with (request_for base64Image existingHeaders).
  eexists. split.
  - apply (round_throws generateContent JSON_parse 5 _ 0 w (SyntaxError msg)).
    + rewrite Hg. apply try_block_rejected; assumption.
    + unfold isRateLimit. cbn [err_status err_code err_message SyntaxError is_429 orb].
      rewrite Hmsg. reflexivity.
  - cbn [log after_round]. rewrite Hg. reflexivity.
Qed.

Example apology_fails_at_once :
  exists w',
    extractDataFromImage (answering (js "Sorry, I cannot read this.")) reference_parse
                         sample_image headers initial
    = Some (Thrown parse_failure, w')
    /\ waits (log w') = []
    /\ List.length (requests (log w')) = 1%nat.
Proof. eexists. vm_compute. repeat split; reflexivity. Qed.

(** C6 fails on the code.  The text [HTTP 429] is no JSON; V8 words the
    [SyntaxError] with the text in it, the message holds "429", and the
    catch block takes the parse failure for a rate limit: it retries
    five times, with all the delays, before it throws its own error. *)
Theorem unparsable_text_with_429_is_retried :
  reference_parse (clean (js "HTTP 429"))
  = Rejected (js "Unexpected token 'H', " ++ jsq "'HTTP 429' is not valid JSON")
  /\ exists w',
      extractDataFromImage (answering (js "HTTP 429")) reference_parse
                           sample_image headers initial
      = Some (Thrown parse_failure, w')
      /\ waits (log w') = [4000; 8000; 16000; 32000; 64000]%Z
      /\ List.length (requests (log w')) = 6%nat.
Proof. split; [vm_compute; reflexivity|]. eexists. vm_compute. repeat split; reflexivity. Qed.

(* ================================================================= *)
(** * Logs *)

Lemma appended_app (a b : list Event) : appended (a ++ b) = appended a ++ appended b.
Proof.
  induction a as [|e a IH]; [reflexivity|].
  destruct e; simpl; rewrite IH; reflexivity.
Qed.

Lemma requests_app (a b : list Event) : requests (a ++ b) = requests a ++ requests b.
Proof.
  induction a as [|e a IH]; [reflexivity|].
  destruct e; simpl; rewrite IH; reflexivity.
Qed.

Lemma call_events_app (a b : list Event) :
  call_events (a ++ b) = call_events a ++ call_events b.
Proof.
  induction a as [|e a IH]; [reflexivity|].
  destruct e; simpl; rewrite IH; reflexivity.
Qed.

Lemma waits_app (a b : list Event) : waits (a ++ b) = waits a ++ waits b.
Proof.
  induction a as [|e a IH]; [reflexivity|].
  destruct e; simpl; rewrite IH; reflexivity.
Qed.

(** No backoff delay is the inter-request delay. *)
Lemma backoff_not_5000 (attempt : nat) : backoff attempt <> 5000%Z.
Proof.
  unfold backoff. intros H.
  rewrite Z.pow_add_r in H by lia.
  assert (E : (2 ^ Z.of_nat attempt * 2 ^ 1 * 1000 = 2000 * 2 ^ Z.of_nat attempt)%Z)
    by (change (2 ^ 1)%Z with 2%Z; ring).
  rewrite E in H.
  assert (M : ((2000 * 2 ^ Z.of_nat attempt) mod 2000 = 0)%Z).
  { rewrite Z.mul_comm. apply Z.mod_mul. lia. }
  rewrite H in M. discriminate M.
Qed.

Section ClientLogs.

Variable generateContent : nat -> Request -> RemoteOutcome.
Variable JSON_parse : jsstring -> ParseResult.

(** The log of an extraction appends no row. *)
Lemma client_appends_nothing (req : Request) (k attempt : nat) (c : Completion)
    (evs : list Event) (k' : nat) :
  ClientRun generateContent JSON_parse req k attempt c evs k' -> appended evs = [].
Proof.
  induction 1 as [k attempt v H | k attempt error c evs k' H Hr Hlt Hrun IH
                  | k attempt error H Hno]; try reflexivity.
  rewrite appended_app, IH. reflexivity.
Qed.

(** It never awaits the inter-request delay. *)
Lemma client_never_pauses (req : Request) (k attempt : nat) (c : Completion)
    (evs : list Event) (k' : nat) :
  ClientRun generateContent JSON_parse req k attempt c evs k' -> ~ In (Waited 5000) evs.
Proof.
  induction 1 as [k attempt v H | k attempt error c evs k' H Hr Hlt Hrun IH
                  | k attempt error H Hno].
  - simpl. intros [E|[E|[]]]; discriminate.
  - intros Hin. apply in_app_or in Hin. destruct Hin as [Hin|Hin]; [|auto].
    simpl in Hin. destruct Hin as [E|[E|[E|[E|[]]]]]; try discriminate.
    injection E as E. exact (backoff_not_5000 _ E).
  - simpl. intros [E|[E|[E|[]]]]; discriminate.
Qed.

(** Its calls are all for the one request, at least one and at most
    one more than the retries left, and the call counter counts them. *)
Lemma client_requests (req : Request) (k attempt : nat) (c : Completion)
    (evs : list Event) (k' : nat) :
  ClientRun generateContent JSON_parse req k attempt c evs k' ->
  (attempt <= maxRetries)%nat ->
  exists m, requests evs = repeat req m
            /\ (1 <= m)%nat /\ (m + attempt <= maxRetries + 1)%nat
            /\ k' = (k + m)%nat.
Proof.
  induction 1 as [k attempt v H | k attempt error c evs k' H Hr Hlt Hrun IH
                  | k attempt error H Hno]; intros Hle.
  - exists 1%nat. simpl. repeat split; try reflexivity; unfold maxRetries in *; lia.
  - destruct IH as (m & Hm & H1 & H2 & Hk); [lia|].
    exists (S m). rewrite requests_app, Hm. simpl. repeat split; try reflexivity; unfold maxRetries in *; lia.
  - exists 1%nat. simpl. repeat split; try reflexivity; unfold maxRetries in *; lia.
Qed.

(** Each of its calls settles before the next one is made. *)
Lemma client_one_at_a_time (req : Request) (k attempt : nat) (c : Completion)
    (evs : list Event) (k' : nat) (later : list Event) :
  ClientRun generateContent JSON_parse req k attempt c evs k' ->
  one_at_a_time (call_events evs ++ later) = one_at_a_time later.
Proof.
  induction 1 as [k attempt v H | k attempt error c evs k' H Hr Hlt Hrun IH
                  | k attempt error H Hno]; try reflexivity.
  rewrite call_events_app, <- app_assoc. simpl. exact IH.
Qed.

End ClientLogs.

(* ================================================================= *)
(** * The runs of the orchestrator *)

Lemma success_count_cons (c : Completion) (history : list Completion) :
  success_count (c :: history)
  = ((if failed c then 0 else 1) + success_count history)%nat.
Proof. unfold success_count. simpl. destruct (failed c); reflexivity. Qed.

Lemma failure_count_cons (c : Completion) (history : list Completion) :
  failure_count (c :: history)
  = ((if failed c then 1 else 0) + failure_count history)%nat.
Proof. unfold failure_count. simpl. destruct (failed c); reflexivity. Qed.

Lemma counts_total (history : list Completion) :
  (success_count history + failure_count history = List.length history)%nat.
Proof.
  induction history as [|c h IH]; [reflexivity|].
  rewrite success_count_cons, failure_count_cons. simpl.
  destruct (failed c); lia.
Qed.

Section OrchestratorRuns.

Variable generateContent : nat -> Request -> RemoteOutcome.
Variable JSON_parse : jsstring -> ParseResult.
Variable Math_random_36 : nat -> jsstring.
Variable Date_toISOString : nat -> jsstring.

(** One extraction and what the orchestrator makes of it. *)
Lemma process_run (image : Image) (processedCount : nat) (errors : list jsstring)
    (w : World) :
  exists c client outcome w',
    process generateContent JSON_parse Math_random_36 Date_toISOString
            image processedCount errors w
    = Some (((processedCount + (if failed c then 0 else 1))%nat,
             errors ++ (if failed c then [fileName image] else [])), w')
    /\ ClientRun generateContent JSON_parse (request_for (base64 image) headers)
                 (calls w) 0 c client (calls w')
    /\ Outcome image c outcome
    /\ log w' = log w ++ client ++ [outcome]
    /\ rows w' = rows w ++ appended [outcome].
Proof.
  destruct (extractDataFromImage_run generateContent JSON_parse (base64 image) headers w)
    as (c & w1 & client & Hrun & Htrace & Hlog & Hrows & _).
  unfold process, bind. rewrite Hrun. destruct c as [v|error].
  - unfold generateId, now, appendRow, ret.
    cbn [calls draws clock rows processingState log].
    eexists (Returned v), client,
            (RowAppended (mkTableRow (substr 2 9 (Math_random_36 (draws w1))) v
                                     (fileName image) (Date_toISOString (clock w1)))), _.
    split; [rewrite app_nil_r; reflexivity|].
    split; [exact Htrace|]. split; [constructor; reflexivity|].
    cbn [log rows appended]. rewrite Hlog, Hrows, <- app_assoc. split; reflexivity.
  - unfold console_error, emit, ret.
    eexists (Thrown error), client, (ConsoleError _ error), _.
    split; [rewrite Nat.add_0_r; reflexivity|].
    split; [exact Htrace|]. split; [constructor|].
    cbn [log rows appended]. rewrite Hlog, Hrows, <- app_assoc, app_nil_r.
    split; reflexivity.
Qed.

(** The loop runs to the end of the list, whatever the extractions do. *)
Lemma for_loop_run (n : nat) (rest : list Image) :
  forall (i processedCount : nat) (errors : list jsstring) (w : World),
  exists history segments w',
    for_loop generateContent JSON_parse Math_random_36 Date_toISOString
             n i rest processedCount errors w
    = Some (((processedCount + success_count history)%nat,
             errors ++ failed_names rest history), w')
    /\ LoopRun generateContent JSON_parse n i rest (calls w) history segments (calls w')
    /\ log w' = log w ++ concat segments
    /\ rows w' = rows w ++ appended (concat segments).
Proof.
  induction rest as [|image rest IH]; intros i processedCount errors w.
  - exists [], [], w. cbn [for_loop ret]. unfold success_count. simpl.
    rewrite Nat.add_0_r, !app_nil_r. repeat split. constructor.
  - cbn [for_loop]. unfold bind at 1. unfold setProcessingState.
    set (w0 := mkWorld (calls w) (draws w) (clock w) (rows w)
                       (progress i n (fileName image))
                       (log w ++ [StatusSet (progress i n (fileName image))])).
    destruct (process_run image processedCount errors w0)
      as (c & client & outcome & w1 & Hproc & Htrace & Hout & Hlog1 & Hrows1).
    unfold bind at 1. rewrite Hproc.
    assert (Hthrottle : exists w2, throttle i n w1 = Some (tt, w2)
                                   /\ calls w2 = calls w1
                                   /\ log w2 = log w1 ++ pause i n
                                   /\ rows w2 = rows w1).
    { unfold throttle, pause. destruct (i <? n - 1)%nat.
      - eexists. split; [reflexivity|]. repeat split.
      - exists w1. split; [reflexivity|]. rewrite app_nil_r. repeat split. }
    destruct Hthrottle as (w2 & Hth & Hcalls2 & Hlog2 & Hrows2).
    unfold bind at 1. rewrite Hth.
    destruct (IH (i + 1)%nat (processedCount + (if failed c then 0 else 1))%nat
                 (errors ++ (if failed c then [fileName image] else [])) w2)
      as (history & segments & w' & Hloop & Hruns & Hlog & Hrows).
    rewrite Hloop.
    exists (c :: history),
           ((StatusSet (progress i n (fileName image))
             :: client ++ [outcome] ++ pause i n) :: segments), w'.
    split; [|split; [|split]].
    + rewrite success_count_cons.
      replace (errors ++ failed_names (image :: rest) (c :: history))
        with ((errors ++ (if failed c then [fileName image] else []))
              ++ failed_names rest history).
      * rewrite Nat.add_assoc. reflexivity.
      * rewrite <- app_assoc. destruct c; reflexivity.
    + apply loop_step with (k1 := calls w1); [exact Htrace|exact Hout|].
      rewrite <- Hcalls2. exact Hruns.
    + rewrite Hlog, Hlog2, Hlog1. unfold w0. cbn [log concat].
      rewrite <- !app_assoc. cbn [app]. rewrite <- !app_assoc. reflexivity.
    + rewrite Hrows, Hrows2, Hrows1. unfold w0. cbn [rows concat].
      rewrite appended_app, <- app_assoc. f_equal. f_equal.
      cbn [appended]. rewrite !appended_app.
      rewrite (client_appends_nothing generateContent JSON_parse _ _ _ _ _ _ Htrace).
      assert (Hp : appended (pause i n) = []).
      { unfold pause. destruct (i <? n - 1)%nat; reflexivity. }
      rewrite Hp, app_nil_r. reflexivity.
Qed.

End OrchestratorRuns.

Section LoopFacts.

Variable generateContent : nat -> Request -> RemoteOutcome.
Variable JSON_parse : jsstring -> ParseResult.

Lemma loop_lengths (n i : nat) (images : list Image) (k : nat)
    (history : list Completion) (segments : list (list Event)) (k' : nat) :
  LoopRun generateContent JSON_parse n i images k history segments k' ->
  List.length history = List.length images
  /\ List.length segments = List.length images.
Proof.
  induction 1 as [i k | i image rest k k1 k' c client outcome history segments
                          Hclient Hout Hloop IH]; simpl; [split; reflexivity|].
  destruct IH. split; congruence.
Qed.

(** The rows appended are the records of the extractions that
    returned, under the names of their images, in the order of the
    images. *)
Lemma loop_rows (n i : nat) (images : list Image) (k : nat)
    (history : list Completion) (segments : list (list Event)) (k' : nat) :
  LoopRun generateContent JSON_parse n i images k history segments k' ->
  map record_of (appended (concat segments)) = extracted images history.
Proof.
  induction 1 as [i k | i image rest k k1 k' c client outcome history segments
                          Hclient Hout Hloop IH]; [reflexivity|].
  cbn [concat]. rewrite appended_app. cbn [appended]. rewrite !appended_app.
  rewrite (client_appends_nothing generateContent JSON_parse _ _ _ _ _ _ Hclient).
  assert (Hp : appended (pause i n) = []).
  { unfold pause. destruct (i <? n - 1)%nat; reflexivity. }
  rewrite Hp, app_nil_r. cbn [app].
  destruct Hout as [v row Hdata Hname | error]; cbn [appended app map extracted].
  - rewrite IH. unfold record_of at 1. rewrite Hdata, Hname. reflexivity.
  - exact IH.
Qed.

Lemma extracted_length (images : list Image) (history : list Completion) :
  List.length history = List.length images ->
  List.length (extracted images history) = success_count history.
Proof.
  revert history. induction images as [|image images IH]; intros [|c history] H;
    try discriminate; [reflexivity|].
  rewrite success_count_cons. injection H as H.
  destruct c; simpl; rewrite (IH history H); reflexivity.
Qed.

Lemma failed_names_length (images : list Image) (history : list Completion) :
  List.length history = List.length images ->
  List.length (failed_names images history) = failure_count history.
Proof.
  revert history. induction images as [|image images IH]; intros [|c history] H;
    try discriminate; [reflexivity|].
  rewrite failure_count_cons. injection H as H.
  destruct c; simpl; rewrite (IH history H); reflexivity.
Qed.

(** The segment of each image: its progress message, the events of its
    extraction, the outcome, and the pause that its index calls for. *)
Lemma loop_segment (n i : nat) (images : list Image) (k : nat)
    (history : list Completion) (segments : list (list Event)) (k' : nat) :
  LoopRun generateContent JSON_parse n i images k history segments k' ->
  forall (j : nat) (image : Image) (segment : list Event),
    nth_error images j = Some image ->
    nth_error segments j = Some segment ->
    exists c client outcome ka kb,
      nth_error history j = Some c
      /\ segment = StatusSet (progress (i + j) n (fileName image))
                   :: client ++ [outcome] ++ pause (i + j) n
      /\ ClientRun generateContent JSON_parse (request_for (base64 image) headers)
                   ka 0 c client kb
      /\ Outcome image c outcome.
Proof.
  induction 1 as [i k | i image0 rest k k1 k' c client outcome history segments
                          Hclient Hout Hloop IH]; intros j image segment Hi Hs.
  - destruct j; discriminate.
  - destruct j as [|j].
    + injection Hi as <-. injection Hs as <-.
      exists c, client, outcome, k, k1. rewrite Nat.add_0_r. repeat split; assumption.
    + destruct (IH j image segment Hi Hs) as (c' & cl & out & ka & kb & Hh & Hseg & Hc & Ho).
      exists c', cl, out, ka, kb.
      replace (i + S j)%nat with (i + 1 + j)%nat by lia. repeat split; assumption.
Qed.

(** The calls of the loop settle one at a time. *)
Lemma loop_one_at_a_time (n i : nat) (images : list Image) (k : nat)
    (history : list Completion) (segments : list (list Event)) (k' : nat) :
  LoopRun generateContent JSON_parse n i images k history segments k' ->
  one_at_a_time (call_events (concat segments)) = true.
Proof.
  induction 1 as [i k | i image rest k k1 k' c client outcome history segments
                          Hclient Hout Hloop IH]; [reflexivity|].
  cbn [concat]. rewrite call_events_app. cbn [call_events].
  rewrite !call_events_app, <- !app_assoc.
  rewrite (client_one_at_a_time generateContent JSON_parse _ _ _ _ _ _ _ Hclient).
  assert (Ho : call_events [outcome] = []) by (destruct Hout; reflexivity).
  assert (Hp : call_events (pause i n) = []).
  { unfold pause. destruct (i <? n - 1)%nat; reflexivity. }
  rewrite Ho, Hp. exact IH.
Qed.

(** The calls of the loop go image by image, in the order of the
    images: at least one and at most six for each. *)
Lemma loop_requests (n i : nat) (images : list Image) (k : nat)
    (history : list Completion) (segments : list (list Event)) (k' : nat) :
  LoopRun generateContent JSON_parse n i images k history segments k' ->
  exists counts,
    List.length counts = List.length images
    /\ Forall (fun m => 1 <= m <= 6)%nat counts
    /\ requests (concat segments)
       = flat_map (fun p => repeat (request_for (base64 (fst p)) headers) (snd p))
                  (combine images counts).
Proof.
  induction 1 as [i k | i image rest k k1 k' c client outcome history segments
                          Hclient Hout Hloop IH].
  - exists []. repeat split. constructor.
  - destruct IH as (counts & Hlen & Hall & Hreq).
    destruct (client_requests generateContent JSON_parse _ _ _ _ _ _ Hclient)
      as (m & Hm & H1 & H2 & _); [unfold maxRetries; lia|].
    exists (m :: counts). split; [simpl; congruence|]. split.
    + constructor; [unfold maxRetries in H2; lia|exact Hall].
    + cbn [concat combine flat_map fst snd].
      rewrite requests_app. cbn [requests]. rewrite !requests_app, Hm, Hreq.
      assert (Ho : requests [outcome] = []) by (destruct Hout; reflexivity).
      assert (Hp : requests (pause i n) = []).
      { unfold pause. destruct (i <? n - 1)%nat; reflexivity. }
      rewrite Ho, Hp, app_nil_r. reflexivity.
Qed.

End LoopFacts.

Section HandlerRuns.

Variable generateContent : nat -> Request -> RemoteOutcome.
Variable JSON_parse : jsstring -> ParseResult.
Variable Math_random_36 : nat -> jsstring.
Variable Date_toISOString : nat -> jsstring.

(** An empty selection does nothing at all. *)
Lemma handleImagesSelected_empty (w : World) :
  handleImagesSelected generateContent JSON_parse Math_random_36 Date_toISOString [] w
  = Some (tt, w).
Proof. reflexivity. Qed.

(** A batch runs through: the starting message, one segment per image,
    the final state and the timer that resets it. *)
Lemma handleImagesSelected_run (images : list Image) (w : World) :
  images <> [] ->
  exists history segments w',
    handleImagesSelected generateContent JSON_parse Math_random_36 Date_toISOString
                         images w
    = Some (tt, w')
    /\ LoopRun generateContent JSON_parse (List.length images) 0 images
               (calls w) history segments (calls w')
    /\ log w' = log w ++ [StatusSet (starting (List.length images))]
                ++ concat segments
                ++ [StatusSet (final_state (success_count history) (List.length images)
                                           (failure_count history));
                    TimeoutSet 4000 idle]
    /\ rows w' = rows w ++ appended (concat segments)
    /\ processingState w'
       = final_state (success_count history) (List.length images) (failure_count history).
Proof.
  intros Hne. unfold handleImagesSelected.
  destruct images as [|image rest] eqn:Eimages; [contradiction|].
  rewrite <- Eimages. replace (List.length images =? 0)%nat with false
    by (rewrite Eimages; reflexivity).
  unfold bind at 1. unfold setProcessingState at 1.
  set (w0 := mkWorld (calls w) (draws w) (clock w) (rows w)
                     (starting (List.length images))
                     (log w ++ [StatusSet (starting (List.length images))])).
  destruct (for_loop_run generateContent JSON_parse Math_random_36 Date_toISOString
              (List.length images) images 0%nat 0%nat [] w0)
    as (history & segments & w1 & Hloop & Hruns & Hlog & Hrows).
  unfold bind at 1. rewrite Hloop.
  destruct (loop_lengths generateContent JSON_parse _ _ _ _ _ _ _ Hruns) as [Hlen _].
  cbn [app Nat.add]. rewrite (failed_names_length images history Hlen).
  unfold bind, setProcessingState, setTimeout, emit, ret.
  cbn [calls draws clock rows processingState log].
  exists history, segments. eexists. split; [reflexivity|].
  cbn [calls log rows processingState].
  split; [exact Hruns|]. split; [|split; [exact Hrows|reflexivity]].
  rewrite Hlog. unfold w0. cbn [log]. rewrite <- !app_assoc. reflexivity.
Qed.

End HandlerRuns.

(* ================================================================= *)
(** * The batch *)

(** C4.  A batch is never cut short: every image has its extraction,
    however the others ended, be it with a rate limit on every attempt
    or any other error; each extraction that returned has its row, and
    the table gains as many rows as there are images less the
    extractions that threw. *)
Theorem batch_survives_failures
    (generateContent : nat -> Request -> RemoteOutcome)
    (JSON_parse : jsstring -> ParseResult)
    (Math_random_36 Date_toISOString : nat -> jsstring)
    (images : list Image) (w : World) :
  exists history segments w' new,
    handleImagesSelected generateContent JSON_parse Math_random_36 Date_toISOString
                         images w
    = Some (tt, w')
    /\ LoopRun generateContent JSON_parse (List.length images) 0 images
               (calls w) history segments (calls w')
    /\ List.length history = List.length images
    /\ rows w' = rows w ++ new
    /\ map record_of new = extracted images history
    /\ List.length new = (List.length images - failure_count history)%nat.
Proof.
  destruct images as [|image rest] eqn:E.
  - exists [], [], w, []. rewrite handleImagesSelected_empty, app_nil_r.
    repeat split. constructor.
  - rewrite <- E.
    destruct (handleImagesSelected_run generateContent JSON_parse Math_random_36
                Date_toISOString images w) as (history & segments & w' & Hrun & Hloop & _ & Hrows & _).
    { rewrite E. discriminate. }
    destruct (loop_lengths generateContent JSON_parse _ _ _ _ _ _ _ Hloop) as [Hlen _].
    pose proof (loop_rows generateContent JSON_parse _ _ _ _ _ _ _ Hloop) as Hrec.
    exists history, segments, w', (appended (concat segments)).
    repeat split; try assumption.
    rewrite <- (length_map record_of), Hrec, (extracted_length images history Hlen).
    pose proof (counts_total history). lia.
Qed.

(** C7.  When the loop of a batch (one image at least) is over, the
    state becomes Success if an extraction returned, with the count of
    those out of the total and, if any threw, their count in brackets;
    it becomes Error if none returned.  In both cases a timer of 4000 ms
    is set then, and when it fires the state is Idle again. *)
Theorem batch_ends_in_success_or_error
    (generateContent : nat -> Request -> RemoteOutcome)
    (JSON_parse : jsstring -> ParseResult)
    (Math_random_36 Date_toISOString : nat -> jsstring)
    (images : list Image) (w : World) :
  images <> [] ->
  exists history segments w' evs w'',
    handleImagesSelected generateContent JSON_parse Math_random_36 Date_toISOString
                         images w
    = Some (tt, w')
    /\ LoopRun generateContent JSON_parse (List.length images) 0 images
               (calls w) history segments (calls w')
    /\ log w' = log w ++ evs ++ [StatusSet (processingState w'); TimeoutSet 4000 idle]
    /\ ((0 < success_count history)%nat ->
        processingState w'
        = mkProcessingState SUCCESS
            (Some (js "Successfully processed " ++ string_of_nat (success_count history)
                   ++ js " of " ++ string_of_nat (List.length images) ++ js " images"
                   ++ (if (0 <? failure_count history)%nat
                       then js " (" ++ string_of_nat (failure_count history) ++ js " failed)"
                       else js "")
                   ++ js ".")))
    /\ (success_count history = 0%nat ->
        processingState w'
        = mkProcessingState ERROR (Some (js "Failed to process selected images.")))
    /\ fire (TimeoutSet 4000 idle) w' = Some (tt, w'')
    /\ processingState w'' = mkProcessingState IDLE None.
Proof.
  intros Hne.
  destruct (handleImagesSelected_run generateContent JSON_parse Math_random_36
              Date_toISOString images w Hne)
    as (history & segments & w' & Hrun & Hloop & Hlog & _ & Hstate).
  exists history, segments, w',
         ([StatusSet (starting (List.length images))] ++ concat segments).
  eexists. split; [exact Hrun|]. split; [exact Hloop|]. split.
  { rewrite Hlog, Hstate, <- !app_assoc. reflexivity. }
  split.
  { intros Hpos. rewrite Hstate. unfold final_state.
    apply Nat.ltb_lt in Hpos. rewrite Hpos. reflexivity. }
  split.
  { intros Hzero. rewrite Hstate, Hzero. reflexivity. }
  split; reflexivity.
Qed.

Lemma waits_In (ms : Z) (evs : list Event) : In ms (waits evs) <-> In (Waited ms) evs.
Proof.
  induction evs as [|e evs IH]; [reflexivity|].
  destruct e; simpl; rewrite IH; split; intros H;
    try (right; exact H); try (destruct H as [H|H]; [discriminate H|exact H]).
  - destruct H as [H|H]; [left; congruence|right; exact H].
  - destruct H as [H|H]; [left; congruence|right; exact H].
Qed.

Lemma pauses_app (a b : list Event) : pauses (a ++ b) = (pauses a + pauses b)%nat.
Proof. unfold pauses. rewrite waits_app. apply count_occ_app. Qed.

(** A loop that has [images] left to reach the end of the batch pauses
    once after each of them but the last. *)
Lemma loop_pauses
    (generateContent : nat -> Request -> RemoteOutcome)
    (JSON_parse : jsstring -> ParseResult)
    (n i : nat) (images : list Image) (k : nat)
    (history : list Completion) (segments : list (list Event)) (k' : nat) :
  LoopRun generateContent JSON_parse n i images k history segments k' ->
  (i + List.length images = n)%nat ->
  pauses (concat segments) = (List.length images - 1)%nat.
Proof.
  induction 1 as [i k | i image rest k k1 k' c client outcome history segments
                          Hclient Hout Hloop IH]; intros Hn; [reflexivity|].
  cbn [concat]. rewrite pauses_app.
  change (StatusSet (progress i n (fileName image)) :: client ++ [outcome] ++ pause i n)
    with ([StatusSet (progress i n (fileName image))] ++ client ++ [outcome] ++ pause i n).
  rewrite !pauses_app, IH by (simpl in Hn; lia).
  assert (Hc : pauses client = 0%nat).
  { unfold pauses. apply count_occ_not_In. rewrite waits_In.
    exact (client_never_pauses generateContent JSON_parse _ _ _ _ _ _ Hclient). }
  assert (Ho : pauses [outcome] = 0%nat) by (destruct Hout; reflexivity).
  rewrite Hc, Ho. simpl in Hn. unfold pause.
  destruct (i <? n - 1)%nat eqn:E.
  - apply Nat.ltb_lt in E. change (pauses [Waited 5000]) with 1%nat.
    change (pauses [StatusSet (progress i n (fileName image))]) with 0%nat.
    simpl. lia.
  - apply Nat.ltb_ge in E. change (pauses []) with 0%nat.
    change (pauses [StatusSet (progress i n (fileName image))]) with 0%nat.
    simpl. lia.
Qed.

(** C8.  The log of a batch is the starting message, one segment per
    image, the final state and the reset timer.  The segment of an image
    holds its progress message, the events of its extraction (no delay
    of 5000 ms among them), then the row appended or the error
    reported, and last a delay of 5000 ms if the image is not the last
    of the batch, whether its extraction returned or threw; the segment
    of the last image ends with the row or the error.  So a batch of [n]
    images awaits that delay [n - 1] times. *)
Theorem pause_after_each_image_but_the_last
    (generateContent : nat -> Request -> RemoteOutcome)
    (JSON_parse : jsstring -> ParseResult)
    (Math_random_36 Date_toISOString : nat -> jsstring)
    (images : list Image) (w : World) :
  exists history segments w' evs,
    handleImagesSelected generateContent JSON_parse Math_random_36 Date_toISOString
                         images w
    = Some (tt, w')
    /\ log w' = log w ++ evs
    /\ evs = match images with
             | [] => []
             | _ :: _ =>
                 [StatusSet (starting (List.length images))]
                 ++ concat segments
                 ++ [StatusSet (processingState w'); TimeoutSet 4000 idle]
             end
    /\ List.length segments = List.length images
    /\ (forall (j : nat) (image : Image) (segment : list Event),
          nth_error images j = Some image ->
          nth_error segments j = Some segment ->
          exists c client outcome ka kb,
            nth_error history j = Some c
            /\ ClientRun generateContent JSON_parse
                         (request_for (base64 image) headers) ka 0 c client kb
            /\ ~ In (Waited 5000) client
            /\ Outcome image c outcome
            /\ segment
               = StatusSet (progress j (List.length images) (fileName image))
                 :: client ++ [outcome]
                    ++ (if (j <? List.length images - 1)%nat then [Waited 5000] else []))
    /\ pauses evs = (List.length images - 1)%nat.
Proof.
  destruct images as [|image rest] eqn:E.
  - exists [], [], w, []. rewrite handleImagesSelected_empty, app_nil_r.
    repeat split. intros [|j]; discriminate.
  - rewrite <- E.
    destruct (handleImagesSelected_run generateContent JSON_parse Math_random_36
                Date_toISOString images w)
      as (history & segments & w' & Hrun & Hloop & Hlog & _ & Hstate).
    { rewrite E. discriminate. }
    destruct (loop_lengths generateContent JSON_parse _ _ _ _ _ _ _ Hloop) as [_ Hlen].
    exists history, segments, w'. eexists.
    split; [exact Hrun|]. split; [exact Hlog|].
    split; [rewrite Hstate, E; reflexivity|]. split; [exact Hlen|]. split.
    + intros j img segment Hi Hs.
      destruct (loop_segment generateContent JSON_parse _ _ _ _ _ _ _ Hloop
                             j img segment Hi Hs)
        as (c & client & outcome & ka & kb & Hh & Hseg & Hc & Ho).
      exists c, client, outcome, ka, kb.
      split; [exact Hh|]. split; [exact Hc|]. split.
      { exact (client_never_pauses generateContent JSON_parse _ _ _ _ _ _ Hc). }
      split; [exact Ho|]. exact Hseg.
    + rewrite !pauses_app.
      rewrite (loop_pauses generateContent JSON_parse _ _ _ _ _ _ _ Hloop)
        by reflexivity.
      change (pauses [StatusSet (starting (List.length images))]) with 0%nat.
      match goal with
      | |- context [pauses [StatusSet ?s; TimeoutSet ?ms ?t]] =>
          change (pauses [StatusSet s; TimeoutSet ms t]) with 0%nat
      end.
      lia.
Qed.

(** C9.  In a batch the remote calls settle one at a time: each call
    settles before the next is made.  They go image by image in the
    order of submission, between one and six calls for each image.  The
    rows the table gains are the records of the extractions that
    returned, under the names of their images, in the order of
    submission. *)
Theorem batch_keeps_submission_order
    (generateContent : nat -> Request -> RemoteOutcome)
    (JSON_parse : jsstring -> ParseResult)
    (Math_random_36 Date_toISOString : nat -> jsstring)
    (images : list Image) (w : World) :
  exists history segments w' evs counts,
    handleImagesSelected generateContent JSON_parse Math_random_36 Date_toISOString
                         images w
    = Some (tt, w')
    /\ LoopRun generateContent JSON_parse (List.length images) 0 images
               (calls w) history segments (calls w')
    /\ log w' = log w ++ evs
    /\ one_at_a_time (call_events evs) = true
    /\ List.length counts = List.length images
    /\ Forall (fun m => 1 <= m <= 6)%nat counts
    /\ requests evs
       = flat_map (fun p => repeat (request_for (base64 (fst p)) headers) (snd p))
                  (combine images counts)
    /\ rows w' = rows w ++ appended evs
    /\ map record_of (appended evs) = extracted images history.
Proof.
  destruct images as [|image rest] eqn:E.
  - exists [], [], w, [], []. rewrite handleImagesSelected_empty, app_nil_r.
    repeat split; [constructor|apply Forall_nil|].
    cbn [appended]. rewrite app_nil_r. reflexivity.
  - rewrite <- E.
    destruct (handleImagesSelected_run generateContent JSON_parse Math_random_36
                Date_toISOString images w)
      as (history & segments & w' & Hrun & Hloop & Hlog & Hrows & _).
    { rewrite E. discriminate. }
    destruct (loop_lengths generateContent JSON_parse _ _ _ _ _ _ _ Hloop) as [Hlen _].
    destruct (loop_requests generateContent JSON_parse _ _ _ _ _ _ _ Hloop)
      as (counts & Hcounts & Hall & Hreq).
    exists history, segments, w'. eexists. exists counts.
    split; [exact Hrun|]. split; [exact Hloop|]. split; [exact Hlog|].
    split; [|split; [exact Hcounts|split; [exact Hall|split; [|split]]]].
    + rewrite !call_events_app. cbn [call_events app]. rewrite app_nil_r.
      exact (loop_one_at_a_time generateContent JSON_parse _ _ _ _ _ _ _ Hloop).
    + rewrite !requests_app. cbn [requests app]. rewrite app_nil_r. exact Hreq.
    + rewrite !appended_app. cbn [appended app]. rewrite app_nil_r. exact Hrows.
    + rewrite !appended_app. cbn [appended app]. rewrite app_nil_r.
      exact (loop_rows generateContent JSON_parse _ _ _ _ _ _ _ Hloop).
Qed.

(** Three images of which the second fails: two rows, of the first and
    of the third image in that order, the message "2 of 3" with one
    failure, and the two pauses. *)
Example three_images_second_fails :
  exists w',
    handleImagesSelected (second_rejected (Error (js "fetch failed"))) reference_parse
                         sample_random sample_clock three_images initial
    = Some (tt, w')
    /\ map record_of (rows w') = [(js "a.jpg", object_value); (js "c.jpg", object_value)]
    /\ processingState w'
       = mkProcessingState SUCCESS
           (Some (js "Successfully processed 2 of 3 images (1 failed)."))
    /\ waits (log w') = [5000; 5000]%Z
    /\ List.length (requests (log w')) = 3%nat.
Proof. eexists. vm_compute. repeat split; reflexivity. Qed.

(** The same when the second image is rate limited on every attempt:
    its five backoff delays come between the two pauses. *)
Example three_images_second_rate_limited :
  exists w',
    handleImagesSelected (second_rejected limited_error) reference_parse
                         sample_random sample_clock three_images initial
    = Some (tt, w')
    /\ map record_of (rows w') = [(js "a.jpg", object_value); (js "c.jpg", object_value)]
    /\ processingState w'
       = mkProcessingState SUCCESS
           (Some (js "Successfully processed 2 of 3 images (1 failed)."))
    /\ waits (log w') = [5000; 4000; 8000; 16000; 32000; 64000; 5000]%Z
    /\ List.length (requests (log w')) = 8%nat.
Proof. eexists. vm_compute. repeat split; reflexivity. Qed.

Lemma batch_ends_witness :
  three_images <> []
  /\ exists history w' w'',
      handleImagesSelected (second_rejected limited_error) reference_parse
                           sample_random sample_clock three_images initial
      = Some (tt, w')
      /\ ((0 < success_count history)%nat -> status (processingState w') = SUCCESS)
      /\ (success_count history = 0%nat -> status (processingState w') = ERROR)
      /\ fire (TimeoutSet 4000 idle) w' = Some (tt, w'')
      /\ processingState w'' = mkProcessingState IDLE None.
Proof.
  assert (H : three_images <> []) by discriminate.
  split; [exact H|].
  destruct (batch_ends_in_success_or_error (second_rejected limited_error) reference_parse
              sample_random sample_clock three_images initial H)
    as (history & segments & w' & evs & w'' & Hrun & _ & _ & Hs & He & Hfire & Hidle).
  exists history, w', w''. split; [exact Hrun|]. split.
  { intros Hp. rewrite (Hs Hp). reflexivity. }
  split.
  { intros Hz. rewrite (He Hz). reflexivity. }
  split; assumption.
Defined.

(** A batch in which nothing succeeds ends in Error. *)
Example every_image_fails :
  exists w',
    handleImagesSelected (answering (js "Sorry, I cannot read this.")) reference_parse
                         sample_random sample_clock three_images initial
    = Some (tt, w')
    /\ rows w' = []
    /\ processingState w'
       = mkProcessingState ERROR (Some (js "Failed to process selected images."))
    /\ waits (log w') = [5000; 5000]%Z.
Proof. eexists. vm_compute. repeat split; reflexivity. Qed.

(* ================================================================= *)
(** * The columns *)



(** A text that parses as an object is returned as that object. *)
Lemma object_response_returned
    (generateContent : nat -> Request -> RemoteOutcome)
    (JSON_parse : jsstring -> ParseResult)
    (base64Image : jsstring) (columns : list jsstring) (w : World)
    (text : jsstring) (members : list (jsstring * JSON)) :
  generateContent (calls w) (request_for base64Image columns) = Response (Some text) ->
  text <> [] ->
  JSON_parse (clean text) = Parsed (JObject members) ->
  extractDataFromImage generateContent JSON_parse base64Image columns w
  = Some (Returned (JObject members),
          after_round w [Requested (request_for base64Image columns);
                         Settled (Response (Some text))]).
Proof.
  intros Hg Hne Hp. unfold extractDataFromImage.
  change (mkRequest _ _ _ _) with (request_for base64Image columns).
  rewrite <- Hg. apply round_returns. rewrite Hg.
  rewrite (try_block_parsed JSON_parse text (JObject members) Hne Hp). reflexivity.
Qed.


(* ================================================================= *)
(** * The reference parser and the opening brace *)

Example parse_deep_and_long :
  map Reference.value_of
      [js "[[[[[[1]]]]]]"; js "[1,2,3,4,5,6,7,8,9,10]"; jsq "{'a':{'b':{'c':[{}]}}}"]
  = [Some (JArray [JArray [JArray [JArray [JArray [JArray [Reference.num 1]]]]]]);
     Some (JArray (map Reference.num [1; 2; 3; 4; 5; 6; 7; 8; 9; 10]%N));
     Some (JObject [(js "a", JObject [(js "b", JObject [(js "c", JArray [JObject []])])])])].
Proof. vm_compute. reflexivity. Qed.

Lemma trimStart_head (s : jsstring) (c : N) (r : jsstring) :
  trimStart s = c :: r -> isWhiteSpace c = false.
Proof.
  induction s as [|x s IH]; simpl; [discriminate|].
  destruct (isWhiteSpace x) eqn:E; [exact IH|].
  intros H. injection H as <- _. exact E.
Qed.

(** A trimmed text does not begin with white space. *)
Lemma trim_head (s : jsstring) (c : N) (r : jsstring) :
  trim s = c :: r -> isWhiteSpace c = false.
Proof.
  unfold trim. destruct (trimStart s) as [|x t] eqn:E; [discriminate|].
  pose proof (trimStart_head s x t E) as Hx.
  destruct (trimEnd_cons_solid x t Hx) as [s' Hs']. rewrite Hs'.
  intros H. injection H as <- _. exact Hx.
Qed.

Lemma json_space_is_white_space (c : N) :
  Reference.isJsonSpace c = true -> isWhiteSpace c = true.
Proof.
  unfold Reference.isJsonSpace. rewrite !orb_true_iff, !N.eqb_eq.
  intros [[[-> | ->] | ->] | ->]; reflexivity.
Qed.

Lemma skip_space_solid (c : N) (r : jsstring) :
  isWhiteSpace c = false -> Reference.skip_space (c :: r) = c :: r.
Proof.
  intros H. simpl. destruct (Reference.isJsonSpace c) eqn:E; [|reflexivity].
  apply json_space_is_white_space in E. congruence.
Qed.

Lemma parse_elements_gives_array (fuel : nat) :
  forall (s : jsstring) (acc : list JSON) (v : JSON) (r : jsstring),
    Reference.parse_elements fuel s acc = Some (v, r) -> isArray v = true.
Proof.
  induction fuel as [|fuel IH]; intros s acc v r; [discriminate|].
  cbn [Reference.parse_elements].
  destruct (Reference.parse_value fuel s) as [[v0 r0]|]; [|discriminate].
  destruct (Reference.skip_space r0) as [|c r']; [discriminate|].
  destruct (c =? 44)%N; [apply IH|].
  destruct (c =? 93)%N; [|discriminate].
  intros H. injection H as <- _. reflexivity.
Qed.

(** A trimmed text that the reference parser reads as an object opens
    with a brace. *)
Lemma reference_object_opens_with_brace (body : jsstring)
    (members : list (jsstring * JSON)) :
  Reference.value_of (trim body) = Some (JObject members) ->
  startsWith (js "{") (trim body) = true.
Proof.
  unfold Reference.value_of.
  destruct (trim body) as [|c r] eqn:E.
  - vm_compute. discriminate.
  - pose proof (trim_head body c r E) as Hc.
    set (fuel := (2 * List.length (c :: r) + 1)%nat).
    replace (2 * List.length (c :: r) + 2)%nat with (S fuel) by (unfold fuel; lia).
    cbn [Reference.parse_value]. rewrite (skip_space_solid c r Hc).
    change (startsWith (js "{") (c :: r)) with ((123 =? c)%N && true).
    rewrite (N.eqb_sym 123 c), andb_true_r.
    destruct (c =? 123)%N; [reflexivity|].
    destruct (c =? 91)%N.
    { destruct (Reference.skip_space r) as [|c' r']; [discriminate|].
      destruct (c' =? 93)%N; [destruct (Reference.skip_space r'); discriminate|].
      destruct (Reference.parse_elements fuel (c' :: r') []) as [[v rest]|] eqn:Ee;
        [|discriminate].
      apply parse_elements_gives_array in Ee.
      destruct (Reference.skip_space rest); [|discriminate].
      intros H. injection H as ->. discriminate. }
    destruct (c =? 34)%N.
    { destruct (Reference.parse_chars r []) as [[str rest]|]; [|discriminate].
      destruct (Reference.skip_space rest); discriminate. }
    unfold Reference.parse_literal.
    destruct (c =? 116)%N.
    { destruct (startsWith (js "true") (c :: r)); [|discriminate].
      destruct (Reference.skip_space _); discriminate. }
    destruct (c =? 102)%N.
    { destruct (startsWith (js "false") (c :: r)); [|discriminate].
      destruct (Reference.skip_space _); discriminate. }
    destruct (c =? 110)%N.
    { destruct (startsWith (js "null") (c :: r)); [|discriminate].
      destruct (Reference.skip_space _); discriminate. }
    unfold Reference.parse_number.
    destruct (c =? 45)%N; cbv beta iota zeta;
      (destruct (Reference.parse_int _) as [[m s2]|]; [|discriminate]);
      (destruct (Reference.parse_fraction m s2) as [[[m' k] s3]|]; [|discriminate]);
      (destruct (Reference.parse_exponent s3) as [[e s4]|]; [|discriminate]);
      destruct (Reference.skip_space s4); discriminate.
Qed.

(* ================================================================= *)
(** * More on the Extraction Client *)

Lemma backoffs_prefix (r : nat) :
  (r <= 5)%nat -> map backoff (seq 1 r) = firstn r backoffs.
Proof.
  intros H. do 6 (destruct r as [|r]; [reflexivity|]). lia.
Qed.

Lemma total_wait_prefix (r : nat) :
  (0 <= fold_right Z.add 0 (firstn r backoffs) <= 124000)%Z.
Proof.
  do 6 (destruct r as [|r]; [vm_compute; split; discriminate|]).
  vm_compute. split; discriminate.
Qed.

Lemma includes_app (p a b : jsstring) : includes p (a ++ p ++ b) = true.
Proof.
  induction a as [|c a IH].
  - destruct (p ++ b) eqn:E; simpl; rewrite <- E, startsWith_app; reflexivity.
  - simpl. rewrite IH. apply orb_true_r.
Qed.

Section ClientBounds.

Variable generateContent : nat -> Request -> RemoteOutcome.
Variable JSON_parse : jsstring -> ParseResult.

(** A run retries some [r] times: it awaits the next [r] delays and
    makes [r + 1] calls, all for the one request. *)
Lemma client_retries (req : Request) (k attempt : nat) (c : Completion)
    (evs : list Event) (k' : nat) :
  ClientRun generateContent JSON_parse req k attempt c evs k' ->
  (attempt <= maxRetries)%nat ->
  exists r, (attempt + r <= maxRetries)%nat
            /\ waits evs = map backoff (seq (attempt + 1) r)
            /\ requests evs = repeat req (r + 1)
            /\ k' = (k + r + 1)%nat.
Proof.
  induction 1 as [k attempt v H | k attempt error c evs k' H Hr Hlt Hrun IH
                  | k attempt error H Hno]; intros Hle.
  - exists 0%nat. repeat split; try reflexivity; lia.
  - destruct IH as (r & Hr1 & Hw & Hq & Hk); [lia|].
    exists (S r). split; [lia|]. split; [|split].
    + rewrite waits_app, Hw. cbn [retry_round waits app seq map].
      replace (S (attempt + 1)) with (attempt + 1 + 1)%nat by lia. reflexivity.
    + rewrite requests_app, Hq. reflexivity.
    + lia.
  - exists 0%nat. repeat split; try reflexivity; lia.
Qed.

(** It logs calls, console output and delays, nothing else. *)
Lemma client_events_only (req : Request) (k attempt : nat) (c : Completion)
    (evs : list Event) (k' : nat) :
  ClientRun generateContent JSON_parse req k attempt c evs k' ->
  forallb client_event evs = true.
Proof.
  induction 1 as [k attempt v H | k attempt error c evs k' H Hr Hlt Hrun IH
                  | k attempt error H Hno]; try reflexivity.
  rewrite forallb_app, IH. reflexivity.
Qed.

(** After [r] rounds rejected as rate limited and a round that returns,
    a run returns that value. *)
Lemma run_after_retries (req : Request) (v : JSON) (r : nat) :
  forall (k attempt : nat) (c : Completion) (evs : list Event) (k' : nat),
    ClientRun generateContent JSON_parse req k attempt c evs k' ->
    (attempt + r <= maxRetries)%nat ->
    (forall j, (j < r)%nat ->
       exists e, try_block JSON_parse (generateContent (k + j)%nat req) = Thrown e
                 /\ isRateLimit e = true) ->
    try_block JSON_parse (generateContent (k + r)%nat req) = Returned v ->
    c = Returned v
    /\ waits evs = map backoff (seq (attempt + 1) r)
    /\ List.length (requests evs) = (r + 1)%nat.
Proof.
  induction r as [|r IH]; intros k attempt c evs k' Hrun Hle Hfail Hret.
  - rewrite Nat.add_0_r in Hret.
    inversion Hrun as [k0 a0 v0 H0 | k0 a0 e0 c0 evs0 k0' H0 _ _ _ | k0 a0 e0 H0 _]; subst.
    + split; [congruence|split; reflexivity].
    + congruence.
    + congruence.
  - destruct (Hfail 0%nat ltac:(lia)) as (e & He & Hrate).
    rewrite Nat.add_0_r in He.
    inversion Hrun as [k0 a0 v0 H0 | k0 a0 e0 c0 evs0 k0' H0 Hr0 Hlt0 Hrun0
                       | k0 a0 e0 H0 Hno0]; subst.
    + congruence.
    + destruct (IH (S k) (attempt + 1)%nat c evs0 k' Hrun0) as (Hc & Hw & Hq).
      * lia.
      * intros j Hj. replace (S k + j)%nat with (k + S j)%nat by lia.
        apply Hfail. lia.
      * replace (S k + r)%nat with (k + S r)%nat by lia. exact Hret.
      * split; [exact Hc|]. split.
        -- rewrite waits_app, Hw. cbn [retry_round waits app seq map].
           replace (S (attempt + 1)) with (attempt + 1 + 1)%nat by lia. reflexivity.
        -- rewrite requests_app, length_app, Hq. cbn [retry_round requests List.length].
           lia.
    + assert (E : e0 = e) by congruence. subst e0.
      rewrite Hrate in Hno0. simpl in Hno0.
      apply Nat.ltb_ge in Hno0. lia.
Qed.

End ClientBounds.

(** X1.  A remote failure that is not rate limited is not retried: one
    call, no delay, and the error is thrown as it came (a [SyntaxError]
    apart, which is reworded). *)
Theorem other_remote_error_thrown_at_once
    (generateContent : nat -> Request -> RemoteOutcome)
    (JSON_parse : jsstring -> ParseResult)
    (base64Image : jsstring) (existingHeaders : list jsstring) (w : World)
    (error : JsError) :
  generateContent (calls w) (request_for base64Image existingHeaders) = Failure error ->
  isRateLimit error = false ->
  exists w',
    extractDataFromImage generateContent JSON_parse base64Image existingHeaders w
    = Some (Thrown (rethrow error), w')
    /\ (isSyntaxError error = false -> rethrow error = error)
    /\ log w' = log w ++ throw_round (request_for base64Image existingHeaders)
                                     (Failure error) error
    /\ calls w' = S (calls w).
Proof.
  intros Hg Hno. unfold extractDataFromImage.
  change (mkRequest _ _ _ _) with (request_for base64Image existingHeaders).
  eexists. split.
  - apply (round_throws generateContent JSON_parse 5 _ 0 w error).
    + rewrite Hg. reflexivity.
    + rewrite Hno. reflexivity.
  - split; [intros E; unfold rethrow; rewrite E; reflexivity|].
    cbn [log calls after_round]. rewrite Hg. split; reflexivity.
Qed.

(** X2.  When the first [r] calls (five at most) are rejected as rate
    limited and the next one answers with a JSON object, the client
    returns that object, having awaited exactly the first [r] backoff
    delays and made [r + 1] calls. *)
Theorem recovers_after_rate_limits
    (generateContent : nat -> Request -> RemoteOutcome)
    (JSON_parse : jsstring -> ParseResult)
    (base64Image : jsstring) (existingHeaders : list jsstring) (w : World)
    (r : nat) (text : jsstring) (members : list (jsstring * JSON)) :
  (r <= 5)%nat ->
  (forall j, (j < r)%nat ->
     exists e, generateContent (calls w + j)%nat (request_for base64Image existingHeaders)
               = Failure e
               /\ isRateLimit e = true) ->
  generateContent (calls w + r)%nat (request_for base64Image existingHeaders)
  = Response (Some text) ->
  text <> [] ->
  JSON_parse (clean text) = Parsed (JObject members) ->
  exists w' evs,
    extractDataFromImage generateContent JSON_parse base64Image existingHeaders w
    = Some (Returned (JObject members), w')
    /\ log w' = log w ++ evs
    /\ waits evs = firstn r backoffs
    /\ List.length (requests evs) = (r + 1)%nat.
Proof.
  intros Hr Hfail Hg Hne Hp.
  destruct (extractDataFromImage_run generateContent JSON_parse base64Image
              existingHeaders w) as (c & w' & evs & Hrun & Htrace & Hlog & _).
  destruct (run_after_retries generateContent JSON_parse
              (request_for base64Image existingHeaders) (JObject members) r
              (calls w) 0%nat c evs (calls w') Htrace) as (Hc & Hw & Hq).
  - unfold maxRetries. lia.
  - intros j Hj. destruct (Hfail j Hj) as (e & He & Hrate).
    exists e. rewrite He. split; [reflexivity|exact Hrate].
  - rewrite Hg. rewrite (try_block_parsed JSON_parse text (JObject members) Hne Hp).
    reflexivity.
  - exists w', evs. rewrite Hrun, Hc. split; [reflexivity|]. split; [exact Hlog|].
    split; [|exact Hq]. rewrite Hw. apply backoffs_prefix. exact Hr.
Qed.

(** X3.  Every invocation of the client ends, whatever the remote does:
    after one to six calls, all for the same request, having awaited a
    prefix of the delays 4000, 8000, 16000, 32000, 64000 ms, 124000 ms at
    most in all. *)
Theorem client_ends_within_bounds
    (generateContent : nat -> Request -> RemoteOutcome)
    (JSON_parse : jsstring -> ParseResult)
    (base64Image : jsstring) (existingHeaders : list jsstring) (w : World) :
  exists c w' evs r,
    extractDataFromImage generateContent JSON_parse base64Image existingHeaders w
    = Some (c, w')
    /\ log w' = log w ++ evs
    /\ (r <= 5)%nat
    /\ requests evs = repeat (request_for base64Image existingHeaders) (r + 1)
    /\ calls w' = (calls w + r + 1)%nat
    /\ waits evs = firstn r backoffs
    /\ (0 <= total_wait evs <= 124000)%Z.
Proof.
  destruct (extractDataFromImage_run generateContent JSON_parse base64Image
              existingHeaders w) as (c & w' & evs & Hrun & Htrace & Hlog & _).
  destruct (client_retries generateContent JSON_parse _ _ _ _ _ _ Htrace)
    as (r & Hr & Hw & Hq & Hk); [unfold maxRetries; lia|].
  unfold maxRetries in Hr. cbn [Nat.add] in Hr, Hw.
  exists c, w', evs, r. split; [exact Hrun|]. split; [exact Hlog|].
  split; [exact Hr|]. split; [exact Hq|]. split; [exact Hk|].
  assert (Hwaits : waits evs = firstn r backoffs).
  { rewrite Hw. apply backoffs_prefix. exact Hr. }
  split; [exact Hwaits|]. unfold total_wait. rewrite Hwaits.
  apply total_wait_prefix.
Qed.

(** X4.  The client touches nothing but the remote, the console and
    the timer: it sets no state, appends no row and sets no timeout, and
    the table, the processing state, the random source and the clock are
    as they were. *)
Theorem client_leaves_the_table_alone
    (generateContent : nat -> Request -> RemoteOutcome)
    (JSON_parse : jsstring -> ParseResult)
    (base64Image : jsstring) (existingHeaders : list jsstring) (w : World) :
  exists c w' evs,
    extractDataFromImage generateContent JSON_parse base64Image existingHeaders w
    = Some (c, w')
    /\ log w' = log w ++ evs
    /\ forallb client_event evs = true
    /\ rows w' = rows w
    /\ processingState w' = processingState w
    /\ draws w' = draws w
    /\ clock w' = clock w.
Proof.
  destruct (extractDataFromImage_run generateContent JSON_parse base64Image
              existingHeaders w)
    as (c & w' & evs & Hrun & Htrace & Hlog & Hrows & Hdraws & Hclock & Hstate).
  exists c, w', evs. split; [exact Hrun|]. split; [exact Hlog|]. split.
  { exact (client_events_only generateContent JSON_parse _ _ _ _ _ _ Htrace). }
  repeat split; assumption.
Qed.

(** X5.  An error counts as rate limited as soon as its message holds
    the digits 429 anywhere, whatever its status and code and whatever
    kind of error it is. *)
Theorem message_with_429_is_rate_limit (error : JsError) (before after : jsstring) :
  err_message error = Some (before ++ js "429" ++ after) ->
  isRateLimit error = true.
Proof.
  intros H. unfold isRateLimit. rewrite H, includes_app. apply orb_true_r.
Qed.

(* ================================================================= *)
(** * More on the batch *)

Lemma statuses_app (a b : list Event) : statuses (a ++ b) = statuses a ++ statuses b.
Proof.
  induction a as [|e a IH]; [reflexivity|].
  destruct e; simpl; rewrite IH; reflexivity.
Qed.

Lemma client_events_set_no_status (evs : list Event) :
  forallb client_event evs = true -> statuses evs = [].
Proof.
  induction evs as [|e evs IH]; [reflexivity|].
  simpl. intros H. apply andb_true_iff in H. destruct H as [He Hevs].
  destruct e; try discriminate; simpl; auto.
Qed.

Lemma total_wait_app (a b : list Event) :
  total_wait (a ++ b) = (total_wait a + total_wait b)%Z.
Proof.
  unfold total_wait. rewrite waits_app.
  induction (waits a) as [|x l IH]; simpl; [reflexivity|]. rewrite IH. ring.
Qed.

Lemma rows_from_app (random date : nat -> jsstring) (a b : list (jsstring * JSON)) :
  forall d t,
    rows_from random date d t (a ++ b)
    = rows_from random date d t a
      ++ rows_from random date (d + List.length a) (t + List.length a) b.
Proof.
  induction a as [|[name v] a IH]; intros d t.
  - simpl. rewrite !Nat.add_0_r. reflexivity.
  - cbn [app rows_from List.length]. rewrite IH.
    replace (d + S (List.length a))%nat with (S d + List.length a)%nat by lia.
    replace (t + S (List.length a))%nat with (S t + List.length a)%nat by lia.
    reflexivity.
Qed.

Lemma rows_from_records (random date : nat -> jsstring)
    (records : list (jsstring * JSON)) :
  forall d t, map record_of (rows_from random date d t records) = records.
Proof.
  induction records as [|[name v] records IH]; intros d t; [reflexivity|].
  simpl. rewrite IH. reflexivity.
Qed.

Section BatchMeasures.

Variable generateContent : nat -> Request -> RemoteOutcome.
Variable JSON_parse : jsstring -> ParseResult.

(** The states the loop sets are the progress messages, one per image,
    in order. *)
Lemma loop_statuses (n i : nat) (images : list Image) (k : nat)
    (history : list Completion) (segments : list (list Event)) (k' : nat) :
  LoopRun generateContent JSON_parse n i images k history segments k' ->
  statuses (concat segments)
  = map (fun p => progress (fst p) n (fileName (snd p)))
        (combine (seq i (List.length images)) images).
Proof.
  induction 1 as [i k | i image rest k k1 k' c client outcome history segments
                          Hclient Hout Hloop IH]; [reflexivity|].
  cbn [concat]. rewrite statuses_app. cbn [statuses].
  rewrite !statuses_app, IH.
  rewrite (client_events_set_no_status client
             (client_events_only generateContent JSON_parse _ _ _ _ _ _ Hclient)).
  assert (Ho : statuses [outcome] = []) by (destruct Hout; reflexivity).
  assert (Hp : statuses (pause i n) = []).
  { unfold pause. destruct (i <? n - 1)%nat; reflexivity. }
  rewrite Ho, Hp. cbn [app List.length seq combine map fst snd].
  replace (S i) with (i + 1)%nat by lia. reflexivity.
Qed.

(** The loop makes one to six calls per image, and the call counter
    counts them. *)
Lemma loop_calls (n i : nat) (images : list Image) (k : nat)
    (history : list Completion) (segments : list (list Event)) (k' : nat) :
  LoopRun generateContent JSON_parse n i images k history segments k' ->
  (List.length images <= List.length (requests (concat segments))
   <= 6 * List.length images)%nat
  /\ k' = (k + List.length (requests (concat segments)))%nat.
Proof.
  induction 1 as [i k | i image rest k k1 k' c client outcome history segments
                          Hclient Hout Hloop IH]; [simpl; lia|].
  destruct (client_retries generateContent JSON_parse _ _ _ _ _ _ Hclient)
    as (r & Hr & _ & Hq & Hk); [unfold maxRetries; lia|].
  unfold maxRetries in Hr.
  cbn [concat]. rewrite requests_app. cbn [requests]. rewrite !requests_app, Hq.
  assert (Ho : requests [outcome] = []) by (destruct Hout; reflexivity).
  assert (Hp : requests (pause i n) = []).
  { unfold pause. destruct (i <? n - 1)%nat; reflexivity. }
  rewrite Ho, Hp. cbn [app]. rewrite app_nil_r, length_app, repeat_length.
  cbn [List.length]. lia.
Qed.

(** The loop awaits at most 124000 ms per image and 5000 ms between
    two images. *)
Lemma loop_total_wait (n i : nat) (images : list Image) (k : nat)
    (history : list Completion) (segments : list (list Event)) (k' : nat) :
  LoopRun generateContent JSON_parse n i images k history segments k' ->
  (i + List.length images = n)%nat ->
  (0 <= total_wait (concat segments)
   <= 124000 * Z.of_nat (List.length images)
      + 5000 * Z.of_nat (List.length images - 1))%Z.
Proof.
  induction 1 as [i k | i image rest k k1 k' c client outcome history segments
                          Hclient Hout Hloop IH]; intros Hn;
    [vm_compute; split; discriminate|].
  destruct (client_retries generateContent JSON_parse _ _ _ _ _ _ Hclient)
    as (r & Hr & Hw & _ & _); [unfold maxRetries; lia|].
  unfold maxRetries in Hr. cbn [Nat.add] in Hr, Hw.
  assert (Hc : (0 <= total_wait client <= 124000)%Z).
  { unfold total_wait. rewrite Hw, backoffs_prefix by exact Hr.
    apply total_wait_prefix. }
  assert (Ho : total_wait [outcome] = 0%Z) by (destruct Hout; reflexivity).
  simpl in Hn. specialize (IH ltac:(lia)).
  cbn [concat]. rewrite total_wait_app.
  change (StatusSet (progress i n (fileName image)) :: client ++ [outcome] ++ pause i n)
    with ([StatusSet (progress i n (fileName image))] ++ client ++ [outcome] ++ pause i n).
  rewrite !total_wait_app, Ho.
  change (total_wait [StatusSet (progress i n (fileName image))]) with 0%Z.
  cbn [List.length]. unfold pause.
  destruct (i <? n - 1)%nat eqn:E.
  - apply Nat.ltb_lt in E. change (total_wait [Waited 5000]) with 5000%Z.
    destruct rest as [|image' rest']; [simpl in Hn; lia|].
    cbn [List.length] in *. lia.
  - apply Nat.ltb_ge in E. change (total_wait []) with 0%Z.
    destruct rest as [|image' rest']; [|cbn [List.length] in *; lia].
    cbn [List.length] in *. lia.
Qed.

End BatchMeasures.

Section BatchRows.

Variable generateContent : nat -> Request -> RemoteOutcome.
Variable JSON_parse : jsstring -> ParseResult.
Variable Math_random_36 : nat -> jsstring.
Variable Date_toISOString : nat -> jsstring.

(** The row of one image, if any: its id is the next draw, its
    timestamp the next reading of the clock. *)
Lemma process_rows (image : Image) (processedCount : nat) (errors : list jsstring)
    (w : World) :
  exists res w' records,
    process generateContent JSON_parse Math_random_36 Date_toISOString
            image processedCount errors w = Some (res, w')
    /\ rows w' = rows w ++ rows_from Math_random_36 Date_toISOString
                                    (draws w) (clock w) records
    /\ draws w' = (draws w + List.length records)%nat
    /\ clock w' = (clock w + List.length records)%nat.
Proof.
  destruct (extractDataFromImage_run generateContent JSON_parse (base64 image) headers w)
    as (c & w1 & client & Hrun & _ & _ & Hrows & Hdraws & Hclock & _).
  unfold process, bind. rewrite Hrun. destruct c as [v|error].
  - unfold generateId, now, appendRow, ret.
    cbn [calls draws clock rows processingState log].
    eexists _, _, [(fileName image, v)]. split; [reflexivity|].
    cbn [rows draws clock rows_from List.length]. rewrite Hrows, Hdraws, Hclock.
    repeat split; lia.
  - unfold console_error, emit, ret.
    eexists _, _, []. split; [reflexivity|].
    cbn [rows draws clock rows_from List.length]. rewrite Hrows, Hdraws, Hclock.
    rewrite app_nil_r. repeat split; lia.
Qed.

Lemma for_loop_rows (n : nat) (rest : list Image) :
  forall (i processedCount : nat) (errors : list jsstring) (w : World),
  exists res w' records,
    for_loop generateContent JSON_parse Math_random_36 Date_toISOString
             n i rest processedCount errors w = Some (res, w')
    /\ rows w' = rows w ++ rows_from Math_random_36 Date_toISOString
                                    (draws w) (clock w) records
    /\ draws w' = (draws w + List.length records)%nat
    /\ clock w' = (clock w + List.length records)%nat.
Proof.
  induction rest as [|image rest IH]; intros i processedCount errors w.
  - exists (processedCount, errors), w, []. cbn [for_loop ret rows_from List.length].
    rewrite app_nil_r. repeat split; lia.
  - cbn [for_loop]. unfold bind at 1. unfold setProcessingState.
    set (w0 := mkWorld (calls w) (draws w) (clock w) (rows w)
                       (progress i n (fileName image))
                       (log w ++ [StatusSet (progress i n (fileName image))])).
    destruct (process_rows image processedCount errors w0)
      as ([pc errs] & w1 & records1 & Hproc & Hrows1 & Hdraws1 & Hclock1).
    unfold bind at 1. rewrite Hproc.
    assert (Hthrottle : exists w2, throttle i n w1 = Some (tt, w2)
                                   /\ rows w2 = rows w1 /\ draws w2 = draws w1
                                   /\ clock w2 = clock w1).
    { unfold throttle. destruct (i <? n - 1)%nat.
      - eexists. split; [reflexivity|]. repeat split.
      - exists w1. repeat split. }
    destruct Hthrottle as (w2 & Hth & Hrows2 & Hdraws2 & Hclock2).
    unfold bind at 1. rewrite Hth.
    destruct (IH (i + 1)%nat pc errs w2) as (res & w' & records & Hloop & Hrows & Hdraws & Hclock).
    exists res, w', (records1 ++ records). split; [exact Hloop|].
    rewrite rows_from_app, length_app.
    rewrite Hrows, Hrows2, Hrows1, Hdraws, Hdraws2, Hdraws1, Hclock, Hclock2, Hclock1.
    unfold w0. cbn [rows draws clock]. rewrite <- app_assoc.
    repeat split; lia.
Qed.

End BatchRows.

Lemma handleImagesSelected_rows
    (generateContent : nat -> Request -> RemoteOutcome)
    (JSON_parse : jsstring -> ParseResult)
    (Math_random_36 Date_toISOString : nat -> jsstring)
    (images : list Image) (w : World) :
  exists w' records,
    handleImagesSelected generateContent JSON_parse Math_random_36 Date_toISOString
                         images w = Some (tt, w')
    /\ rows w' = rows w ++ rows_from Math_random_36 Date_toISOString
                                    (draws w) (clock w) records
    /\ draws w' = (draws w + List.length records)%nat
    /\ clock w' = (clock w + List.length records)%nat.
Proof.
  unfold handleImagesSelected. destruct (List.length images =? 0)%nat.
  - exists w, []. cbn [ret rows_from List.length]. rewrite app_nil_r.
    repeat split; lia.
  - unfold bind at 1. unfold setProcessingState at 1.
    set (w0 := mkWorld (calls w) (draws w) (clock w) (rows w)
                       (starting (List.length images))
                       (log w ++ [StatusSet (starting (List.length images))])).
    destruct (for_loop_rows generateContent JSON_parse Math_random_36 Date_toISOString
                (List.length images) images 0%nat 0%nat [] w0)
      as ([pc errs] & w1 & records & Hloop & Hrows & Hdraws & Hclock).
    unfold bind at 1. rewrite Hloop.
    unfold bind, setProcessingState, setTimeout, emit.
    cbn [calls draws clock rows processingState log].
    eexists _, records. split; [reflexivity|].
    cbn [rows draws clock]. rewrite Hrows, Hdraws, Hclock. unfold w0.
    cbn [rows draws clock]. repeat split.
Qed.

Lemma rows_from_short_ids (random date : nat -> jsstring)
    (records : list (jsstring * JSON)) :
  forall d t,
    Forall (fun row => (List.length (id row) <= 9)%nat)
           (rows_from random date d t records).
Proof.
  induction records as [|[name v] records IH]; intros d t; constructor; [|apply IH].
  cbn [id]. unfold substr. apply firstn_le_length.
Qed.

(** X6.  During a batch the state is set to the starting message, then
    to "Processing i of N: name" for each image in order, before its
    extraction, and last to the final state; the two counts of the final
    state add up to the number of images. *)
Theorem batch_status_sequence
    (generateContent : nat -> Request -> RemoteOutcome)
    (JSON_parse : jsstring -> ParseResult)
    (Math_random_36 Date_toISOString : nat -> jsstring)
    (images : list Image) (w : World) :
  images <> [] ->
  exists history segments w' evs,
    handleImagesSelected generateContent JSON_parse Math_random_36 Date_toISOString
                         images w = Some (tt, w')
    /\ LoopRun generateContent JSON_parse (List.length images) 0 images
               (calls w) history segments (calls w')
    /\ log w' = log w ++ evs
    /\ statuses evs
       = starting (List.length images)
         :: map (fun p => progress (fst p) (List.length images) (fileName (snd p)))
                (combine (seq 0 (List.length images)) images)
         ++ [final_state (success_count history) (List.length images)
                         (failure_count history)]
    /\ (success_count history + failure_count history = List.length images)%nat.
Proof.
  intros Hne.
  destruct (handleImagesSelected_run generateContent JSON_parse Math_random_36
              Date_toISOString images w Hne)
    as (history & segments & w' & Hrun & Hloop & Hlog & _ & _).
  destruct (loop_lengths generateContent JSON_parse _ _ _ _ _ _ _ Hloop) as [Hlen _].
  exists history, segments, w'. eexists.
  split; [exact Hrun|]. split; [exact Hloop|]. split; [exact Hlog|]. split.
  - rewrite !statuses_app.
    rewrite (loop_statuses generateContent JSON_parse _ _ _ _ _ _ _ Hloop).
    reflexivity.
  - rewrite counts_total. exact Hlen.
Qed.

(** X7.  A batch of N images makes N remote calls at least and 6 N at
    most, and awaits 124000 ms per image and 5000 ms between two images
    at most. *)
Theorem batch_calls_and_waits_bounded
    (generateContent : nat -> Request -> RemoteOutcome)
    (JSON_parse : jsstring -> ParseResult)
    (Math_random_36 Date_toISOString : nat -> jsstring)
    (images : list Image) (w : World) :
  exists w' evs,
    handleImagesSelected generateContent JSON_parse Math_random_36 Date_toISOString
                         images w = Some (tt, w')
    /\ log w' = log w ++ evs
    /\ (List.length images <= List.length (requests evs) <= 6 * List.length images)%nat
    /\ calls w' = (calls w + List.length (requests evs))%nat
    /\ (0 <= total_wait evs
        <= 124000 * Z.of_nat (List.length images)
           + 5000 * Z.of_nat (List.length images - 1))%Z.
Proof.
  destruct images as [|image rest] eqn:E.
  - exists w, []. rewrite handleImagesSelected_empty, app_nil_r.
    repeat split; simpl; try lia; vm_compute; discriminate.
  - rewrite <- E.
    destruct (handleImagesSelected_run generateContent JSON_parse Math_random_36
                Date_toISOString images w)
      as (history & segments & w' & Hrun & Hloop & Hlog & _ & _).
    { rewrite E. discriminate. }
    destruct (loop_calls generateContent JSON_parse _ _ _ _ _ _ _ Hloop) as [Hcalls Hk].
    pose proof (loop_total_wait generateContent JSON_parse _ _ _ _ _ _ _ Hloop eq_refl)
      as Hwait.
    exists w'. eexists. split; [exact Hrun|]. split; [exact Hlog|].
    rewrite !requests_app, !total_wait_app. cbn [requests app].
    rewrite app_nil_r.
    change (total_wait [StatusSet (starting (List.length images))]) with 0%Z.
    match goal with
    | |- context [total_wait [StatusSet ?s; TimeoutSet ?ms ?t]] =>
        change (total_wait [StatusSet s; TimeoutSet ms t]) with 0%Z
    end.
    split; [exact Hcalls|]. split; [exact Hk|]. lia.
Qed.

(** X8.  The rows a batch appends take their ids and timestamps in
    order: the j-th new row has for id the code units 2 to 10 of the
    j-th next random draw in base 36, so nine code units at most, and
    for timestamp the j-th next reading of the clock; one draw and one
    reading per row, none for a failed image. *)
Theorem batch_rows_ids_and_timestamps
    (generateContent : nat -> Request -> RemoteOutcome)
    (JSON_parse : jsstring -> ParseResult)
    (Math_random_36 Date_toISOString : nat -> jsstring)
    (images : list Image) (w : World) :
  exists history segments w' new,
    handleImagesSelected generateContent JSON_parse Math_random_36 Date_toISOString
                         images w = Some (tt, w')
    /\ LoopRun generateContent JSON_parse (List.length images) 0 images
               (calls w) history segments (calls w')
    /\ rows w' = rows w ++ new
    /\ new = rows_from Math_random_36 Date_toISOString (draws w) (clock w)
                       (extracted images history)
    /\ Forall (fun row => (List.length (id row) <= 9)%nat) new
    /\ draws w' = (draws w + success_count history)%nat
    /\ clock w' = (clock w + success_count history)%nat.
Proof.
  destruct (handleImagesSelected_rows generateContent JSON_parse Math_random_36
              Date_toISOString images w)
    as (w' & records & Hrun & Hrows & Hdraws & Hclock).
  assert (Hext : exists history segments,
             LoopRun generateContent JSON_parse (List.length images) 0 images
                     (calls w) history segments (calls w')
             /\ extracted images history = records).
  { destruct images as [|image rest] eqn:E.
    - exists [], []. rewrite handleImagesSelected_empty in Hrun.
      injection Hrun as <-. split; [constructor|].
      apply (f_equal (@List.length TableRow)) in Hrows.
      rewrite length_app in Hrows.
      assert (L : List.length (rows_from Math_random_36 Date_toISOString
                                         (draws w) (clock w) records) = 0%nat) by lia.
      destruct records as [|[name v] records]; [reflexivity|discriminate L].
    - rewrite <- E in *.
      destruct (handleImagesSelected_run generateContent JSON_parse Math_random_36
                  Date_toISOString images w)
        as (history & segments & w2 & Hrun2 & Hloop & _ & Hrows2 & _).
      { rewrite E. discriminate. }
      rewrite Hrun in Hrun2. injection Hrun2 as <-.
      exists history, segments. split; [exact Hloop|].
      rewrite Hrows in Hrows2. apply app_inv_head in Hrows2.
      rewrite <- (loop_rows generateContent JSON_parse _ _ _ _ _ _ _ Hloop).
      rewrite <- Hrows2. apply rows_from_records. }
  destruct Hext as (history & segments & Hloop & Hrec).
  destruct (loop_lengths generateContent JSON_parse _ _ _ _ _ _ _ Hloop) as [Hlen _].
  exists history, segments, w'. eexists.
  split; [exact Hrun|]. split; [exact Hloop|]. split; [exact Hrows|].
  split; [rewrite Hrec; reflexivity|]. split; [apply rows_from_short_ids|].
  rewrite <- (extracted_length images history Hlen), Hrec. split; assumption.
Qed.

(* ================================================================= *)
(** * Splitting and joining *)


Lemma split_free (sep : N) (s : jsstring) :
  free_of sep s = true -> split sep s = [s].
Proof.
  induction s as [|c r IH]; [reflexivity|].
  cbn [free_of forallb]. intros H. apply andb_true_iff in H. destruct H as [Hc Hr].
  cbn [split]. apply negb_true_iff in Hc. rewrite Hc.
  unfold free_of in IH. rewrite (IH Hr). reflexivity.
Qed.

Lemma split_app (sep : N) (p r : jsstring) :
  free_of sep p = true -> split sep (p ++ sep :: r) = p :: split sep r.
Proof.
  induction p as [|c p IH].
  - intros _. cbn [app split]. rewrite N.eqb_refl. reflexivity.
  - cbn [free_of forallb]. intros H. apply andb_true_iff in H. destruct H as [Hc Hp].
    cbn [app split]. apply negb_true_iff in Hc. rewrite Hc.
    unfold free_of in IH. rewrite (IH Hp). reflexivity.
Qed.




(* ================================================================= *)
(** * The exports *)


Lemma try_map_raises {A B : Type} (f : A -> Try B) (l : list A) :
  Exists (fun x => f x = RaisedTypeError) l -> try_map f l = RaisedTypeError.
Proof.
  induction 1 as [x l Hx | x l Hl IH]; cbn [try_map].
  - rewrite Hx. reflexivity.
  - destruct (f x); [rewrite IH|]; reflexivity.
Qed.


Section ExportFacts.

Variable Number_toString : Decimal -> jsstring.


Lemma row_cells_null {A : Type} (render : option JSON -> A) (row : TableRow) :
  data row = JNull -> row_cells render row = RaisedTypeError.
Proof. intros H. unfold row_cells. rewrite H. reflexivity. Qed.


End ExportFacts.


Lemma includes_head (c : N) (r : jsstring) : includes [c] (c :: r) = true.
Proof. cbn [includes startsWith]. rewrite N.eqb_refl. reflexivity. Qed.

Lemma double_quotes_inj (a : jsstring) :
  forall b, double_quotes a = double_quotes b -> a = b.
Proof.
  induction a as [|x a IH]; intros [|y b] H.
  - reflexivity.
  - cbn [double_quotes flat_map] in H. destruct (y =? 34)%N; discriminate H.
  - cbn [double_quotes flat_map] in H. destruct (x =? 34)%N; discriminate H.
  - cbn [double_quotes flat_map] in H.
    fold (double_quotes a) in H. fold (double_quotes b) in H.
    destruct (x =? 34)%N eqn:Ex, (y =? 34)%N eqn:Ey.
    + apply N.eqb_eq in Ex, Ey. subst. cbn [app] in H.
      injection H as H. f_equal. apply IH. exact H.
    + cbn [app] in H. injection H as Hy _. subst y. discriminate Ey.
    + cbn [app] in H. injection H as Hx _. subst x. discriminate Ex.
    + cbn [app] in H. injection H as -> H. f_equal. apply IH. exact H.
Qed.

Lemma quoted_field_has_quote (str : jsstring) :
  includes dq (dq ++ double_quotes str ++ dq) = true.
Proof. apply includes_head. Qed.


(** X10.  A row whose record is null (the model answered [null]) breaks
    every reader of the table: the copy, the download and the table
    body all throw a [TypeError] on the first column they read, whatever
    the other rows hold. *)
Theorem null_record_breaks_exports
    (Number_toString : Decimal -> jsstring) (rows : list TableRow) :
  Exists (fun row => data row = JNull) rows ->
  tsv Number_toString rows = RaisedTypeError
  /\ csvContent Number_toString rows = RaisedTypeError
  /\ table_body Number_toString rows = RaisedTypeError.
Proof.
  intros H. split; [|split].
  - unfold tsv. rewrite try_map_raises; [reflexivity|].
    apply Exists_exists. apply Exists_exists in H. destruct H as (row & Hin & Hnull).
    exists row. split; [exact Hin|].
    rewrite (row_cells_null (tsv_cell Number_toString) row Hnull). reflexivity.
  - unfold csvContent. rewrite try_map_raises; [reflexivity|].
    apply Exists_exists. apply Exists_exists in H. destruct H as (row & Hin & Hnull).
    exists row. split; [exact Hin|].
    rewrite (row_cells_null (escapeCsv Number_toString) row Hnull). reflexivity.
  - unfold table_body. apply try_map_raises.
    apply Exists_exists. apply Exists_exists in H. destruct H as (row & Hin & Hnull).
    exists row. split; [exact Hin|].
    apply (row_cells_null (shown Number_toString) row Hnull).
Qed.

(** X11.  Two different texts never make the same CSV field: a text
    without comma, double quote and line feed stands as it is, any other
    is put between double quotes with its double quotes doubled, and the
    two forms cannot be mistaken for one another. *)
Theorem csv_field_tells_texts_apart (a b : jsstring) :
  quote_if_needed a = quote_if_needed b -> a = b.
Proof.
  unfold quote_if_needed.
  destruct (includes (js ",") a || includes dq a || includes nl a) eqn:Ea;
    destruct (includes (js ",") b || includes dq b || includes nl b) eqn:Eb; intros H.
  - apply app_inv_head in H. apply app_inv_tail in H. apply double_quotes_inj. exact H.
  - exfalso. apply orb_false_iff in Eb. destruct Eb as [Eb _].
    apply orb_false_iff in Eb. destruct Eb as [_ Eb].
    rewrite <- H, quoted_field_has_quote in Eb. discriminate.
  - exfalso. apply orb_false_iff in Ea. destruct Ea as [Ea _].
    apply orb_false_iff in Ea. destruct Ea as [_ Ea].
    rewrite H, quoted_field_has_quote in Ea. discriminate.
  - exact H.
Qed.

(** X12.  A value that is falsy but not null and not undefined (the
    number zero, [false]) is left out of the text for the clipboard,
    though the table and the CSV show it. *)
Theorem clipboard_blanks_falsy_values
    (Number_toString : Decimal -> jsstring) (v : JSON) :
  truthy v = false ->
  v <> JNull ->
  tsv_cell Number_toString (Some v) = []
  /\ shown Number_toString (Some v) = Some (ToString Number_toString v)
  /\ escapeCsv Number_toString (Some v)
     = quote_if_needed (ToString Number_toString v).
Proof.
  intros Hf Hn. split; [|split].
  - cbn [tsv_cell]. rewrite Hf. reflexivity.
  - destruct v; try reflexivity. contradiction.
  - destruct v; try reflexivity. contradiction.
Qed.

(** X13.  From a data URL the uploader takes what stands between the
    first comma and the second one, if any: the whole payload when
    neither the prefix nor the payload holds a comma; and nothing when
    the text has no comma. *)
Theorem payload_of_data_url (prefix body rest : jsstring) :
  free_of 44 prefix = true ->
  free_of 44 body = true ->
  payload (prefix ++ js "," ++ body) = Some body
  /\ payload (prefix ++ js "," ++ body ++ js "," ++ rest) = Some body
  /\ payload prefix = None.
Proof.
  intros Hp Hb. unfold payload.
  change (js ",") with [44%N]. cbn [app]. split; [|split].
  - rewrite (split_app 44 prefix _ Hp), (split_free 44 body Hb). reflexivity.
  - rewrite (split_app 44 prefix _ Hp), (split_app 44 body _ Hb). reflexivity.
  - rewrite (split_free 44 prefix Hp). reflexivity.
Qed.

(* ================================================================= *)
(** * Half a fence *)

Lemma trimStart_app_nonempty (x y : jsstring) :
  trimStart x <> [] -> trimStart (x ++ y) = trimStart x ++ y.
Proof.
  induction x as [|c x IH]; [contradiction|].
  cbn [app trimStart]. destruct (isWhiteSpace c); [exact IH|reflexivity].
Qed.

Lemma trimStart_split (s : jsstring) :
  exists sp, s = sp ++ trimStart s /\ forallb isWhiteSpace sp = true.
Proof.
  induction s as [|c s (sp & Hs & Hsp)]; [exists []; split; reflexivity|].
  cbn [trimStart]. destruct (isWhiteSpace c) eqn:E.
  - exists (c :: sp). cbn [app forallb]. rewrite E, Hsp, <- Hs. split; reflexivity.
  - exists []. split; reflexivity.
Qed.

Lemma trimEnd_app_nonempty (a b : jsstring) :
  trimEnd b <> [] -> trimEnd (a ++ b) = a ++ trimEnd b.
Proof.
  unfold trimEnd. intros H. rewrite rev_app_distr.
  rewrite trimStart_app_nonempty.
  - rewrite rev_app_distr, rev_involutive. reflexivity.
  - intros E. apply H. rewrite E. reflexivity.
Qed.

Lemma trimEnd_idem (s : jsstring) : trimEnd (trimEnd s) = trimEnd s.
Proof. unfold trimEnd. rewrite rev_involutive, trimStart_idem. reflexivity. Qed.

(** The end of a text that is an object, white space aside: the white
    space it begins with, then its trimming. *)
Lemma trimEnd_of_brace_text (body : jsstring) :
  startsWith (js "{") (trim body) = true ->
  exists sp r, trimEnd body = sp ++ 123%N :: r
               /\ trim body = 123%N :: r
               /\ forallb isWhiteSpace sp = true.
Proof.
  intros H. apply starts_with_brace in H. destruct H as [r Hr].
  destruct (trimStart_split body) as (sp & Hs & Hsp).
  exists sp, r. split; [|split; [exact Hr|exact Hsp]].
  unfold trim in Hr. rewrite Hs at 1.
  rewrite trimEnd_app_nonempty; [rewrite Hr; reflexivity|].
  rewrite Hr. discriminate.
Qed.

Lemma strip_opening_fence_before (opening x : jsstring) (c : N) (r : jsstring) :
  stripped_opening opening ->
  x = c :: r ->
  c <> 106%N ->
  strip_opening_fence (opening ++ x) = x.
Proof.
  intros Ho -> Hc. destruct Ho as [-> | ->].
  - unfold strip_opening_fence. rewrite startsWith_app, (skipn_app_exact fence).
    assert (Hj : startsWith (js "json") (c :: r) = false).
    { change (startsWith (js "json") (c :: r))
        with ((106 =? c)%N && startsWith [115; 111; 110]%N r).
      replace (106 =? c)%N with false; [reflexivity|].
      symmetry. apply N.eqb_neq. congruence. }
    cbv zeta. rewrite Hj. reflexivity.
  - unfold strip_opening_fence. rewrite <- app_assoc, startsWith_app.
    rewrite (skipn_app_exact fence), startsWith_app.
    apply (skipn_app_exact (js "json")).
Qed.

(** X14.  Half a fence.  An opening marker (bare or tagged [json])
    before a JSON object is stripped also when no closing marker
    follows, and the response fares as the object alone; a closing
    marker after the object with no opening one is left where it is, so
    that the text handed to [JSON.parse] still ends with it. *)
Theorem half_fences
    (JSON_parse : jsstring -> ParseResult) (opening body : jsstring) :
  stripped_opening opening ->
  startsWith (js "{") (trim body) = true ->
  endsWith fence (trimEnd body) = false ->
  try_block JSON_parse (Response (Some (opening ++ body)))
  = try_block JSON_parse (Response (Some body))
  /\ clean (body ++ fence) = trimStart body ++ fence.
Proof.
  intros Ho Hb Hend.
  destruct (trimEnd_of_brace_text body Hb) as (sp & r & Ht & Hr & Hsp).
  destruct (brace_text_head body Hb) as (c0 & r0 & Hbody & _).
  split.
  - assert (Hclean : clean (opening ++ body) = clean body).
    { rewrite (clean_plain body Hb). unfold clean.
      assert (Hopen : exists o, opening = 96%N :: 96%N :: 96%N :: o).
      { destruct Ho as [-> | ->]; eexists; reflexivity. }
      destruct Hopen as (o & ->).
      assert (Htrim : trim ((96%N :: 96%N :: 96%N :: o) ++ body)
                      = (96%N :: 96%N :: 96%N :: o) ++ trimEnd body).
      { unfold trim. cbn [app]. rewrite trimStart_solid by exact backtick_solid.
        change (96%N :: 96%N :: 96%N :: o ++ body)
          with ((96%N :: 96%N :: 96%N :: o) ++ body).
        apply trimEnd_app_nonempty. rewrite Ht. destruct sp; discriminate. }
      rewrite Htrim.
      assert (Hs : startsWith fence ((96%N :: 96%N :: 96%N :: o) ++ trimEnd body) = true)
        by reflexivity.
      rewrite Hs.
      assert (Hhead : exists c t, trimEnd body = c :: t /\ c <> 106%N).
      { rewrite Ht. destruct sp as [|x sp'].
        - exists 123%N, r. split; [reflexivity|discriminate].
        - exists x, (sp' ++ 123%N :: r). split; [reflexivity|].
          cbn [forallb] in Hsp. apply andb_true_iff in Hsp. destruct Hsp as [Hx _].
          intros ->. discriminate Hx. }
      destruct Hhead as (c & t & Hct & Hc).
      rewrite (strip_opening_fence_before _ (trimEnd body) c t Ho Hct Hc).
      unfold strip_closing_fence. rewrite Hend.
      unfold trim at 1. rewrite Ht, trimStart_space by exact Hsp.
      rewrite trimStart_solid by reflexivity.
      rewrite <- Hr. unfold trim. apply trimEnd_idem. }
    assert (Hne : opening ++ body <> []).
    { rewrite Hbody. destruct opening; discriminate. }
    destruct (opening ++ body) as [|x t] eqn:Ew; [contradiction|].
    rewrite Hbody in *. cbn [try_block]. rewrite Hclean. reflexivity.
  - unfold clean.
    assert (Hstart : trimStart body <> []).
    { intros E. unfold trim in Hr. rewrite E in Hr. discriminate Hr. }
    assert (Htrim : trim (body ++ fence) = trimStart body ++ fence).
    { unfold trim. rewrite (trimStart_app_nonempty body fence Hstart).
      change fence with ([96; 96]%N ++ [96%N]). rewrite app_assoc.
      apply trimEnd_solid. exact backtick_solid. }
    rewrite Htrim.
    destruct (trimStart body) as [|c t] eqn:E; [contradiction|].
    assert (Hc : c = 123%N).
    { unfold trim in Hr. rewrite E in Hr.
      pose proof (trimStart_head body c t E) as Hsolid.
      destruct (trimEnd_cons_solid c t Hsolid) as (s' & Hs'). congruence. }
    subst c. reflexivity.
Qed.

(* ================================================================= *)
(** * The added statements at work *)

Lemma other_remote_error_witness :
  (fun (_ : nat) (_ : Request) => Failure network_error)
    (calls initial) (request_for sample_image headers) = Failure network_error
  /\ isRateLimit network_error = false
  /\ exists w',
      extractDataFromImage (fun _ _ => Failure network_error) reference_parse
                           sample_image headers initial
      = Some (Thrown network_error, w')
      /\ waits (log w') = []
      /\ calls w' = 1%nat.
Proof.
  assert (H1 : (fun (_ : nat) (_ : Request) => Failure network_error)
                 (calls initial) (request_for sample_image headers)
               = Failure network_error) by reflexivity.
  assert (H2 : isRateLimit network_error = false) by reflexivity.
  split; [exact H1|]. split; [exact H2|].
  destruct (other_remote_error_thrown_at_once (fun _ _ => Failure network_error)
              reference_parse sample_image headers initial network_error H1 H2)
    as (w' & Hrun & _ & Hlog & Hcalls).
  exists w'. split; [exact Hrun|]. split; [rewrite Hlog; reflexivity|exact Hcalls].
Defined.

Lemma recovers_witness :
  (2 <= 5)%nat
  /\ (forall j, (j < 2)%nat ->
        exists e, limited_then_answering 2 object_text (calls initial + j)%nat
                    (request_for sample_image headers) = Failure e
                  /\ isRateLimit e = true)
  /\ limited_then_answering 2 object_text (calls initial + 2)%nat
       (request_for sample_image headers) = Response (Some object_text)
  /\ object_text <> []
  /\ reference_parse (clean object_text) = Parsed object_value
  /\ exists w' evs,
      extractDataFromImage (limited_then_answering 2 object_text) reference_parse
                           sample_image headers initial
      = Some (Returned object_value, w')
      /\ log w' = log initial ++ evs
      /\ waits evs = [4000; 8000]%Z
      /\ List.length (requests evs) = 3%nat.
Proof.
  assert (H1 : (2 <= 5)%nat) by lia.
  assert (H2 : forall j, (j < 2)%nat ->
             exists e, limited_then_answering 2 object_text (calls initial + j)%nat
                         (request_for sample_image headers) = Failure e
                       /\ isRateLimit e = true).
  { intros j Hj. exists limited_error. split; [|reflexivity].
    unfold limited_then_answering. apply Nat.ltb_lt in Hj. cbn [calls initial Nat.add].
    rewrite Hj. reflexivity. }
  assert (H3 : limited_then_answering 2 object_text (calls initial + 2)%nat
                 (request_for sample_image headers) = Response (Some object_text))
    by reflexivity.
  assert (H4 : object_text <> []) by discriminate.
  assert (H5 : reference_parse (clean object_text) = Parsed object_value)
    by (vm_compute; reflexivity).
  repeat (split; [assumption|]).
  exact (recovers_after_rate_limits (limited_then_answering 2 object_text)
           reference_parse sample_image headers initial 2 object_text
           [(js "a", Reference.num 1)] H1 H2 H3 H4 H5).
Defined.

Lemma message_with_429_witness :
  err_message (SyntaxError (js "Unexpected token } in JSON at position " ++ js "429" ++ []))
  = Some (js "Unexpected token } in JSON at position " ++ js "429" ++ [])
  /\ isRateLimit (SyntaxError (js "Unexpected token } in JSON at position "
                               ++ js "429" ++ [])) = true.
Proof.
  assert (H : err_message (SyntaxError (js "Unexpected token } in JSON at position "
                                        ++ js "429" ++ []))
              = Some (js "Unexpected token } in JSON at position " ++ js "429" ++ []))
    by reflexivity.
  split; [exact H|].
  exact (message_with_429_is_rate_limit _ _ _ H).
Defined.

Lemma batch_status_witness :
  three_images <> []
  /\ exists w' evs,
      handleImagesSelected (second_rejected limited_error) reference_parse
                           sample_random sample_clock three_images initial
      = Some (tt, w')
      /\ log w' = log initial ++ evs
      /\ List.length (statuses evs) = 5%nat
      /\ nth_error (statuses evs) 2
         = Some (mkProcessingState PROCESSING (Some (js "Processing 2 of 3: b.jpg"))).
Proof.
  assert (H : three_images <> []) by discriminate.
  split; [exact H|].
  destruct (batch_status_sequence (second_rejected limited_error) reference_parse
              sample_random sample_clock three_images initial H)
    as (history & segments & w' & evs & Hrun & _ & Hlog & Hstat & _).
  exists w', evs. split; [exact Hrun|]. split; [exact Hlog|].
  rewrite Hstat. split; reflexivity.
Defined.

Example status_sequence_of_three :
  exists w',
    handleImagesSelected (second_rejected limited_error) reference_parse
                         sample_random sample_clock three_images initial
    = Some (tt, w')
    /\ map message (statuses (log w'))
       = [Some (js "Starting processing of 3 image(s)...");
          Some (js "Processing 1 of 3: a.jpg");
          Some (js "Processing 2 of 3: b.jpg");
          Some (js "Processing 3 of 3: c.jpg");
          Some (js "Successfully processed 2 of 3 images (1 failed).")]
    /\ map id (rows w') = [js "4fzyo82mv"; js "4fzyo82mv"]
    /\ total_wait (log w') = 134000%Z.
Proof. eexists. vm_compute. repeat split; reflexivity. Qed.


(** The record of [messy_record] on the clipboard: the tab and the line
    feed of the date are spaces, the zero is left out. *)
Example clipboard_of_messy_record :
  tsv whole_number_text [row_of messy_record]
  = Ok (join tab headers ++ nl
        ++ js "2024 01 05" ++ tab ++ tab ++ jsq "a,'b'" ++ tab ++ tab ++ tab ++ tab
        ++ tab ++ js "").
Proof. vm_compute. reflexivity. Qed.

(** The same record in the CSV: the zero is there, the value with a
    comma and quotes is quoted, the date keeps its line feed between
    quotes. *)
Example csv_of_messy_record :
  csvContent whole_number_text [row_of messy_record]
  = Ok (js "data:text/csv;charset=utf-8," ++ join (js ",") headers ++ nl
        ++ dq ++ js "2024" ++ tab ++ js "01" ++ nl ++ js "05" ++ dq
        ++ js ",," ++ dq ++ jsq "a,''b''" ++ dq ++ js ",,,,,0").
Proof. vm_compute. reflexivity. Qed.

Lemma null_record_witness :
  Exists (fun row => data row = JNull) [row_of object_value; row_of JNull]
  /\ tsv whole_number_text [row_of object_value; row_of JNull] = RaisedTypeError
  /\ csvContent whole_number_text [row_of object_value; row_of JNull] = RaisedTypeError
  /\ table_body whole_number_text [row_of object_value; row_of JNull] = RaisedTypeError.
Proof.
  assert (H : Exists (fun row => data row = JNull) [row_of object_value; row_of JNull]).
  { right. left. reflexivity. }
  split; [exact H|].
  exact (null_record_breaks_exports whole_number_text _ H).
Defined.

(** From the response to the export: the model answers [null], the
    batch counts a success and appends a row whose record is null, and
    the copy throws. *)
Example null_response_breaks_copy :
  exists w',
    handleImagesSelected (answering (js "null")) reference_parse
                         sample_random sample_clock
                         [mkImage sample_image (js "receipt.jpg")] initial
    = Some (tt, w')
    /\ map data (rows w') = [JNull]
    /\ status (processingState w') = SUCCESS
    /\ tsv whole_number_text (rows w') = RaisedTypeError.
Proof.
  eexists. split; [vm_compute; reflexivity|].
  vm_compute. repeat split; reflexivity.
Qed.

Lemma csv_field_witness :
  quote_if_needed (jsq "a,'b'") = quote_if_needed (jsq "a,'b'")
  /\ jsq "a,'b'" = jsq "a,'b'".
Proof.
  assert (H : quote_if_needed (jsq "a,'b'") = quote_if_needed (jsq "a,'b'"))
    by reflexivity.
  split; [exact H|].
  exact (csv_field_tells_texts_apart _ _ H).
Defined.

Lemma falsy_value_witness :
  truthy (JBool false) = false
  /\ JBool false <> JNull
  /\ tsv_cell whole_number_text (Some (JBool false)) = []
  /\ shown whole_number_text (Some (JBool false)) = Some (js "false")
  /\ escapeCsv whole_number_text (Some (JBool false)) = js "false".
Proof.
  assert (H1 : truthy (JBool false) = false) by reflexivity.
  assert (H2 : JBool false <> JNull) by discriminate.
  split; [exact H1|]. split; [exact H2|].
  exact (clipboard_blanks_falsy_values whole_number_text (JBool false) H1 H2).
Defined.

Lemma payload_witness :
  free_of 44 (js "data:image/jpeg;base64") = true
  /\ free_of 44 sample_image = true
  /\ payload (js "data:image/jpeg;base64" ++ js "," ++ sample_image) = Some sample_image.
Proof.
  assert (H1 : free_of 44 (js "data:image/jpeg;base64") = true) by reflexivity.
  assert (H2 : free_of 44 sample_image = true) by reflexivity.
  split; [exact H1|]. split; [exact H2|].
  destruct (payload_of_data_url (js "data:image/jpeg;base64") sample_image [] H1 H2)
    as (H & _ & _). exact H.
Defined.

Lemma half_fences_witness :
  stripped_opening (fence ++ js "json")
  /\ startsWith (js "{") (trim fenced_body) = true
  /\ endsWith fence (trimEnd fenced_body) = false
  /\ try_block reference_parse (Response (Some ((fence ++ js "json") ++ fenced_body)))
     = Returned object_value
  /\ clean (fenced_body ++ fence) = trimStart fenced_body ++ fence.
Proof.
  assert (H1 : stripped_opening (fence ++ js "json")) by (right; reflexivity).
  assert (H2 : startsWith (js "{") (trim fenced_body) = true) by (vm_compute; reflexivity).
  assert (H3 : endsWith fence (trimEnd fenced_body) = false) by (vm_compute; reflexivity).
  split; [exact H1|]. split; [exact H2|]. split; [exact H3|].
  destruct (half_fences reference_parse (fence ++ js "json") fenced_body H1 H2 H3)
    as (Hopen & Hclose).
  split; [|exact Hclose]. rewrite Hopen. vm_compute. reflexivity.
Defined.

(** A closing marker alone: the object is lost to a parse failure. *)
Example closing_marker_alone_fails :
  option_map fst (extractDataFromImage (answering (object_text ++ fence)) reference_parse
                                       sample_image headers initial)
  = Some (Thrown parse_failure).
Proof. vm_compute. reflexivity. Qed.

(* ================================================================= *)
(** * The record, from the response to the table *)






Section RecordFacts.

Variable generateContent : nat -> Request -> RemoteOutcome.
Variable JSON_parse : jsstring -> ParseResult.


Variable Math_random_36 : nat -> jsstring.
Variable Date_toISOString : nat -> jsstring.



End RecordFacts.


